(** * Comment lifecycle of the wiki: a shallow embedding of
      [server/models/comments.js] and the properties of its specification.

    The model follows the source file function by function.  Asynchronous
    functions become state transformers over a [World] that holds the two
    tables the file touches (comments, pages), the search index, the mail
    outbox and the logger; a rejected promise is an [Outcome] of [Throw].
    The state reached when an exception is thrown is kept, because nothing
    in the source runs inside a transaction. *)

From Stdlib Require Import ZArith String Ascii List Lia.
From stdpp Require Import base option list gmap strings sorting.

Local Open Scope string_scope.
Local Open Scope Z_scope.

(** ** JavaScript and lodash primitives used by the source *)

Module JS.

(** Code units matched by [\s] in a JavaScript regular expression.
    Strings are modelled as sequences of code units below 256, so of the
    Unicode spaces only the no-break space (160) is in range. *)
Definition is_whitespace (c : ascii) : bool :=
  let n := nat_of_ascii c in
  ((9 <=? n)%nat && (n <=? 13)%nat) || (n =? 32)%nat || (n =? 160)%nat.

Fixpoint trimStart (s : string) : string :=
  match s with
  | EmptyString => EmptyString
  | String c r => if is_whitespace c then trimStart r else s
  end.

Fixpoint trimEnd (s : string) : string :=
  match s with
  | EmptyString => EmptyString
  | String c r =>
      match trimEnd r with
      | EmptyString => if is_whitespace c then EmptyString else String c EmptyString
      | r' => String c r'
      end
  end.

(** [_.trim(s)]: strips leading and trailing whitespace. *)
Definition trim (s : string) : string := trimEnd (trimStart s).

Definition lower_char (c : ascii) : ascii :=
  let n := nat_of_ascii c in
  if ((65 <=? n)%nat && (n <=? 90)%nat)
     || ((192 <=? n)%nat && (n <=? 222)%nat && negb (n =? 215)%nat)
  then ascii_of_nat (n + 32) else c.

Fixpoint lower_string (s : string) : string :=
  match s with
  | EmptyString => EmptyString
  | String c r => String (lower_char c) (lower_string r)
  end.

(** [_.toLower(v)]: [undefined] and [null] are converted to the empty
    string before lowering. *)
Definition toLower (v : option string) : string :=
  match v with
  | None => EmptyString
  | Some s => lower_string s
  end.

(** Interpolation of a possibly undefined value in a template literal. *)
Definition interpolate (v : option string) : string :=
  match v with
  | None => "undefined"
  | Some s => s
  end.

(** Truthiness of an array: every array is truthy, the empty one too. *)
Definition truthy_array {A} (a : list A) : bool := true.

(** Truthiness of a number-or-missing value: [undefined], [null],
    [false] (all [None]) and [0] are falsy. *)
Definition truthy_number (v : option Z) : bool :=
  match v with
  | None => false
  | Some n => negb (n =? 0)
  end.

End JS.

(** ** The validators of validate.js that [postNewComment] configures

    The library is a dependency of the repository; its four validators are
    written out as its documentation gives them, with the e-mail regular
    expression left to the platform (see [validate_email_PATTERN]). *)

Module Validate.

(** [/^\s*$/] *)
Fixpoint EMPTY_STRING_REGEXP (s : string) : bool :=
  match s with
  | EmptyString => true
  | String c r => JS.is_whitespace c && EMPTY_STRING_REGEXP r
  end.

Definition isEmpty (v : option string) : bool :=
  match v with
  | None => true
  | Some s => EMPTY_STRING_REGEXP s
  end.

(** [presence: {allowEmpty: false}] *)
Definition presence (v : option string) : list string :=
  if isEmpty v then ["can't be blank"] else [].

(** [email: true], for a given regular expression. *)
Definition email (PATTERN : string → bool) (v : option string) : list string :=
  match v with
  | None => []
  | Some s => if PATTERN s then [] else ["is not a valid email"]
  end.

(** [length: {minimum, maximum}]; the two bounds used by the source give
    fixed messages. *)
Definition length_minimum_2 (v : option string) : list string :=
  match v with
  | None => []
  | Some s =>
      if (String.length s <? 2)%nat
      then ["is too short (minimum is 2 characters)"] else []
  end.

Definition length_maximum_255 (v : option string) : list string :=
  match v with
  | None => []
  | Some s =>
      if (255 <? String.length s)%nat
      then ["is too long (maximum is 255 characters)"] else []
  end.

(** Full messages of the flat format: the capitalised attribute name
    followed by the validator's message. *)
Definition fullMessages (attribute : string) (errors : list string) : list string :=
  (λ e, attribute ++ " " ++ e) <$> errors.

(** [validate(attributes, constraints, {format: 'flat'})] returns
    [undefined] when no validator complains. *)
Definition flat (errors : list string) : option (list string) :=
  match errors with
  | [] => None
  | _ => Some errors
  end.

End Validate.

(** ** Data model *)

(** Values of the page's [extra] bag, which is stored as JSON. *)
#[local] Set Warnings "-register-all".
Inductive Json :=
| JNull
| JBool (b : bool)
| JNum (n : Z)
| JStr (s : string)
| JArr (l : list Json)
| JObj (l : list (string * Json)).

Record User := mkUser {
  user_id : Z;
  user_name : option string;
  user_email : option string;
  user_groups : list Z
}.

Record Page := mkPage {
  page_id : Z;
  page_path : string;
  page_localeCode : string;
  page_title : string;
  page_extra : gmap string Json;
  page_render : string
}.

(** A row of the [comments] table.  Timestamps are ISO strings in the
    source; they are modelled by the instant they denote, whose order is the
    order of the strings. *)
Record Comment := mkComment {
  c_id : Z;
  c_pageId : Z;
  c_replyTo : Z;
  c_content : string;
  c_render : string;
  c_authorId : Z;
  c_name : option string;
  c_email : option string;
  c_ip : string;
  c_createdAt : Z;
  c_updatedAt : Z
}.

(** The page handed to the search engine: the row plus [safeContent]. *)
Record IndexedPage := mkIndexedPage {
  ix_page : Page;
  ix_safeContent : string
}.

(** Options passed to [WIKI.mail.send]. *)
Record MailData := mkMailData {
  md_preheadertext : string;
  md_title : string;
  md_content : string;
  md_buttonLink : string;
  md_buttonText : string
}.

Record Mail := mkMail {
  mail_template : string;
  mail_to : list (option string);
  mail_subject : string;
  mail_data : MailData;
  mail_text : string
}.

Inductive WikiError :=
| InputInvalid (message : string)
| CommentContentMissing
| CommentPostForbidden
| CommentManageForbidden
| CommentNotFound
| PageNotFound
| TypeError (message : string)
| SearchEngineError.

Record World := mkWorld {
  w_comments : list Comment;
  w_nextCommentId : Z;
  w_pages : list Page;
  w_searchIndex : gmap Z IndexedPage;
  w_outbox : list Mail;
  w_log : list string;
  w_clock : Z
}.

Definition set_comments (f : list Comment → list Comment) (w : World) : World :=
  mkWorld (f (w_comments w)) (w_nextCommentId w) (w_pages w) (w_searchIndex w)
          (w_outbox w) (w_log w) (w_clock w).

Definition set_nextCommentId (n : Z) (w : World) : World :=
  mkWorld (w_comments w) n (w_pages w) (w_searchIndex w)
          (w_outbox w) (w_log w) (w_clock w).

Definition set_pages (f : list Page → list Page) (w : World) : World :=
  mkWorld (w_comments w) (w_nextCommentId w) (f (w_pages w)) (w_searchIndex w)
          (w_outbox w) (w_log w) (w_clock w).

Definition set_searchIndex (ix : gmap Z IndexedPage) (w : World) : World :=
  mkWorld (w_comments w) (w_nextCommentId w) (w_pages w) ix
          (w_outbox w) (w_log w) (w_clock w).

Definition set_outbox (f : list Mail → list Mail) (w : World) : World :=
  mkWorld (w_comments w) (w_nextCommentId w) (w_pages w) (w_searchIndex w)
          (f (w_outbox w)) (w_log w) (w_clock w).

Definition set_log (f : list string → list string) (w : World) : World :=
  mkWorld (w_comments w) (w_nextCommentId w) (w_pages w) (w_searchIndex w)
          (w_outbox w) (f (w_log w)) (w_clock w).

Definition set_clock (t : Z) (w : World) : World :=
  mkWorld (w_comments w) (w_nextCommentId w) (w_pages w) (w_searchIndex w)
          (w_outbox w) (w_log w) t.

(** ** Asynchronous computations *)

Inductive Outcome (A : Type) :=
| Return (a : A)
| Throw (e : WikiError).
Arguments Return {A} a.
Arguments Throw {A} e.

Definition Async (A : Type) : Type := World → Outcome A * World.

Definition ret {A} (a : A) : Async A := λ w, (Return a, w).

Definition throw {A} (e : WikiError) : Async A := λ w, (Throw e, w).

Definition bind {A B} (m : Async A) (k : A → Async B) : Async B :=
  λ w, match m w with
       | (Return a, w') => k a w'
       | (Throw e, w') => (Throw e, w')
       end.

Declare Scope async_scope.
Delimit Scope async_scope with async.
Notation "x <- m ;; k" := (bind m (λ x, k))
  (at level 100, m at next level, right associativity) : async_scope.
Notation "m ;; k" := (bind m (λ _, k))
  (at level 100, right associativity) : async_scope.
Local Open Scope async_scope.

(** The value of a fulfilled promise. *)
Definition returned {A} (o : Outcome A) : option A :=
  match o with
  | Return a => Some a
  | Throw _ => None
  end.

Definition modify (f : World → World) : Async unit := λ w, (Return tt, f w).

(** ** Collaborators

    What [comments.js] reaches through the global [WIKI] object and the
    process environment.  The class fixes their interfaces only; every
    theorem below holds for all implementations unless it says otherwise. *)

Record AccessContext := mkAccessContext {
  ac_path : string;
  ac_locale : string
}.

Class Wiki := {
  (** [WIKI.auth.checkAccess(user, permissions, {path, locale})] *)
  auth_checkAccess : User → list string → AccessContext → bool;
  (** the regular expression of validate.js's [email] validator *)
  validate_email_PATTERN : string → bool;
  (** [WIKI.models.pages.cleanHTML] *)
  pages_cleanHTML : string → string;
  (** [WIKI.data.searchEngine.updated]: the new index, or [None] when the
      engine rejects *)
  searchEngine_updated : IndexedPage → gmap Z IndexedPage → option (gmap Z IndexedPage);
  (** the database's [ORDER BY createdAt DESC] on rows of [comments] *)
  orderBy_createdAt_desc : list Comment → list Comment;
  (** [WIKI.data.commentProvider.getPageIdFromCommentId]; section 4.4 of
      the specification makes it a lookup without side effects, hence a
      function of the state *)
  commentProvider_getPageIdFromCommentId : Z → World → option Z;
  (** [WIKI.config.host] and [process.env.NOTIFY_EMAIL] *)
  config_host : string;
  env_NOTIFY_EMAIL : option string;
  (** the clock after one reading of [new Date()] *)
  Date_tick : Z → Z
}.

(** Arguments of the provider's three mutations, as the source builds
    them: the author is the caller's user object with [ip] added. *)
Record Author := mkAuthor {
  au_user : User;
  au_ip : string
}.

Record CreateArgs := mkCreateArgs {
  cr_page : Page;
  cr_replyTo : Z;
  cr_content : string;
  cr_user : Author
}.

Record UpdateArgs := mkUpdateArgs {
  up_id : Z;
  up_content : string;
  up_page : Page;
  up_user : Author
}.

Record RemoveArgs := mkRemoveArgs {
  rm_id : Z;
  rm_page : Page;
  rm_user : Author
}.

(** [WIKI.data.commentProvider]: the pluggable storage backend. *)
Class CommentProvider := {
  provider_create : CreateArgs → Async Comment;
  provider_update : UpdateArgs → Async Comment;
  provider_remove : RemoveArgs → Async unit
}.

(** ** Queries on the two tables *)

(** [WIKI.models.comments.query().where('pageId', pageId)]; a missing page
    id matches no row. *)
Definition comments_where_pageId (pageId : option Z) (w : World) : list Comment :=
  filter (λ c, Some (c_pageId c) = pageId) (w_comments w).

(** [WIKI.models.pages.query().findById(id)] *)
Definition pages_findById (id : option Z) (w : World) : option Page :=
  match id with
  | None => None
  | Some i => List.find (λ p, page_id p =? i) (w_pages w)
  end.

Definition with_extra (e : gmap string Json) (p : Page) : Page :=
  mkPage (page_id p) (page_path p) (page_localeCode p) (page_title p) e (page_render p).

(** [WIKI.models.pages.query().patch({extra}).where('id', id)] *)
Definition pages_patch_extra (e : gmap string Json) (id : Z) : Async unit :=
  modify (set_pages (map (λ p, if page_id p =? id then with_extra e p else p))).

(** Modelled from the spec: [WIKI.models.pages.getPageFromDb], whose file
    is not part of the source; section 6 gives it as
    [PageStore.getById(pageId) → Page | absent], a lookup by id. *)
Definition pages_getPageFromDb (pageId : option Z) : Async (option Page) :=
  λ w, (Return (pages_findById pageId w), w).

(** [new Date().toISOString()] *)
Definition newDate `{Wiki} : Async Z :=
  λ w, (Return (w_clock w), set_clock (Date_tick (w_clock w)) w).

Definition logger_info (msg : string) : Async unit :=
  modify (set_log (λ l, (l ++ [msg])%list)).

(** [WIKI.mail.send(opts)], called without [await]: the request is handed
    to the mailer and its outcome is not observed. *)
Definition mail_send (m : Mail) : Async unit :=
  modify (set_outbox (λ l, (l ++ [m])%list)).

(** A read of the current state. *)
Definition gets {A} (f : World → A) : Async A := λ w, (Return (f w), w).

(** ** The [Comment] model class of [comments.js] *)

Section CommentModel.
Context `{Wiki}.

(** [await WIKI.data.searchEngine.updated(updPage)] *)
Definition searchEngine_push (p : IndexedPage) : Async unit :=
  λ w, match searchEngine_updated p (w_searchIndex w) with
       | Some ix => (Return tt, set_searchIndex ix w)
       | None => (Throw SearchEngineError, w)
       end.

(** The fields a patch may carry. *)
Record CommentPatch := mkCommentPatch {
  pt_content : option string;
  pt_render : option string;
  pt_updatedAt : option Z
}.

(** [$beforeUpdate()] *)
Definition beforeUpdate (this : CommentPatch) : Async CommentPatch :=
  now <- newDate ;;
  ret (mkCommentPatch (pt_content this) (pt_render this) (Some now)).

(** [$beforeInsert()] *)
Definition beforeInsert (this : Comment) : Async Comment :=
  created <- newDate ;;
  updated <- newDate ;;
  ret (mkComment (c_id this) (c_pageId this) (c_replyTo this) (c_content this)
                 (c_render this) (c_authorId this) (c_name this) (c_email this)
                 (c_ip this) created updated).

(** [static async indexComments(pageId)] *)
Definition indexComments (pageId : option Z) : Async unit :=
  existingComments <-
    gets (λ w, orderBy_createdAt_desc (comments_where_pageId pageId w)) ;;
  if JS.truthy_array existingComments then
    page <- gets (pages_findById pageId) ;;
    let cArray :=
      foldl (λ acc ec, (acc ++ [c_content ec])%list) [] existingComments in
    match page with
    | None => throw (TypeError "Cannot read properties of undefined (reading 'extra')")
    | Some page =>
        pages_patch_extra
          (<["comment" := JArr (JStr <$> cArray)]> (page_extra page))
          (page_id page) ;;
        updPage <- gets (pages_findById (Some (page_id page))) ;;
        pgContent <- gets (pages_findById (Some (page_id page))) ;;
        match updPage, pgContent with
        | Some updPage, Some pgContent =>
            searchEngine_push
              (mkIndexedPage updPage (pages_cleanHTML (page_render pgContent)))
        | _, _ =>
            throw (TypeError "Cannot read properties of undefined (reading 'render')")
        end
    end
  else
    logger_info "No comments to index on this page.".

(** [static async sendNotify(pageId, content, author)] *)
Definition sendNotify (pageId : Z) (content : string) (author : option string)
  : Async unit :=
  page <- gets (pages_findById (Some pageId)) ;;
  match page with
  | None =>
      throw (TypeError "Cannot read properties of undefined (reading 'localeCode')")
  | Some page =>
      let pageLink :=
        config_host ++ "/" ++ page_localeCode page ++ "/" ++ page_path page in
      let pageRef := "'" ++ page_title page ++ "'" in
      let subjRef := "[wiki.js] New comment on " ++ page_title page in
      let textMeBb :=
        "A new comment was added to '" ++ pageRef
          ++ "'. More information: " ++ pageLink in
      let emails := [env_NOTIFY_EMAIL] in
      let emailOpts :=
        mkMail "new-page" emails subjRef
          (mkMailData ("New comment on '" ++ pageRef ++ "'")
                      (JS.interpolate author ++ " commented on '" ++ pageRef ++ "'.")
                      content
                      pageLink
                      ("Open '" ++ pageRef ++ "'"))
          textMeBb in
      mail_send emailOpts
  end.

(** [async $afterInsert()] *)
Definition afterInsert (this : Comment) : Async unit :=
  indexComments (Some (c_pageId this)) ;;
  sendNotify (c_pageId this) (c_content this) (c_email this).

(** [static async afterUpdate({ asFindQuery })]; [asFindQuery().select('id')]
    yields the ids of the rows the update matched. *)
Definition afterUpdate (asFindQuery : World → list Z) : Async unit :=
  comment <- gets asFindQuery ;;
  match comment with
  | [] => throw (TypeError "Cannot read properties of undefined (reading 'id')")
  | comment0 :: _ =>
      pageId <- gets (commentProvider_getPageIdFromCommentId comment0) ;;
      indexComments pageId
  end.

(** The [validate(...)] call of [postNewComment]: constraints are visited
    in the order they are written, [email] before [name]. *)
Definition validateGuest (email : string) (name : option string)
  : option (list string) :=
  Validate.flat
    (Validate.fullMessages "Email"
       (Validate.email validate_email_PATTERN (Some email)
        ++ Validate.length_maximum_255 (Some email))
     ++ Validate.fullMessages "Name"
       (Validate.presence name
        ++ Validate.length_minimum_2 name
        ++ Validate.length_maximum_255 name))%list.

Record NewCommentArgs := mkNewCommentArgs {
  nc_pageId : Z;
  nc_replyTo : Z;
  nc_content : string;
  nc_guestName : option string;
  nc_guestEmail : option string;
  nc_user : User;
  nc_ip : string
}.

Record UpdateCommentArgs := mkUpdateCommentArgs {
  uc_id : Z;
  uc_content : string;
  uc_user : User;
  uc_ip : string
}.

Record DeleteCommentArgs := mkDeleteCommentArgs {
  dc_id : Z;
  dc_user : User;
  dc_ip : string
}.

Definition accessContext (page : Page) : AccessContext :=
  mkAccessContext (page_path page) (page_localeCode page).

(** [{...user, ...(user.id === 2) ? {name: guestName, email: guestEmail} : {}, ip}] *)
Definition newCommentAuthor (a : NewCommentArgs) : Author :=
  let user := nc_user a in
  mkAuthor
    (if user_id user =? 2
     then mkUser (user_id user) (nc_guestName a) (nc_guestEmail a) (user_groups user)
     else user)
    (nc_ip a).

Context `{CommentProvider}.

(** [static async postNewComment({...})] *)
Definition postNewComment (a : NewCommentArgs) : Async Comment :=
  (if user_id (nc_user a) =? 2 then
     let validation :=
       validateGuest (JS.toLower (nc_guestEmail a)) (nc_guestName a) in
     match validation with
     | Some (first :: _) => throw (InputInvalid first)
     | _ => ret tt
     end
   else ret tt) ;;
  let content := JS.trim (nc_content a) in
  (if (String.length content <? 2)%nat
   then throw CommentContentMissing else ret tt) ;;
  page <- pages_getPageFromDb (Some (nc_pageId a)) ;;
  match page with
  | Some page =>
      if negb (auth_checkAccess (nc_user a) ["write:comments"] (accessContext page))
      then throw CommentPostForbidden
      else
        provider_create
          (mkCreateArgs page (nc_replyTo a) content (newCommentAuthor a))
  | None => throw PageNotFound
  end.

(** [static async updateComment({ id, content, user, ip })] *)
Definition updateComment (a : UpdateCommentArgs) : Async Comment :=
  pageId <- gets (commentProvider_getPageIdFromCommentId (uc_id a)) ;;
  if negb (JS.truthy_number pageId) then throw CommentNotFound
  else
    page <- pages_getPageFromDb pageId ;;
    match page with
    | Some page =>
        if negb (auth_checkAccess (uc_user a) ["manage:comments"] (accessContext page))
        then throw CommentManageForbidden
        else
          provider_update
            (mkUpdateArgs (uc_id a) (uc_content a) page
                          (mkAuthor (uc_user a) (uc_ip a)))
    | None => throw PageNotFound
    end.

(** [static async deleteComment({ id, user, ip })] *)
Definition deleteComment (a : DeleteCommentArgs) : Async unit :=
  pageId <- gets (commentProvider_getPageIdFromCommentId (dc_id a)) ;;
  if negb (JS.truthy_number pageId) then throw CommentNotFound
  else
    page <- pages_getPageFromDb pageId ;;
    match page with
    | Some page =>
        if negb (auth_checkAccess (dc_user a) ["manage:comments"] (accessContext page))
        then throw CommentManageForbidden
        else
          provider_remove
            (mkRemoveArgs (dc_id a) page (mkAuthor (dc_user a) (dc_ip a)))
    | None => throw PageNotFound
    end.

End CommentModel.

(** ** Query lifecycle of the ORM

    The model class extends Objection's [Model]: an insert runs
    [$beforeInsert], the statement, then [$afterInsert]; a patch runs
    [$beforeUpdate], the statement, then the static [afterUpdate]; the
    hooks are awaited and a rejection rejects the query.  The class declares
    no hook for deletion, so a delete is the statement alone.  No query is
    wrapped in a transaction. *)

Section Queries.
Context `{Wiki}.

(** [INSERT INTO comments]: the row receives the next id. *)
Definition comments_insert_row (this : Comment) : Async Comment :=
  λ w,
    let row :=
      mkComment (w_nextCommentId w) (c_pageId this) (c_replyTo this)
                (c_content this) (c_render this) (c_authorId this) (c_name this)
                (c_email this) (c_ip this) (c_createdAt this) (c_updatedAt this) in
    (Return row,
     set_nextCommentId (w_nextCommentId w + 1)
       (set_comments (λ l, (l ++ [row])%list) w)).

(** The part of an insert that writes: [$beforeInsert], then the
    statement. *)
Definition comments_insert_statement (obj : Comment) : Async Comment :=
  this <- beforeInsert obj ;;
  comments_insert_row this.

(** [WIKI.models.comments.query().insert(obj)] *)
Definition comments_insert (obj : Comment) : Async Comment :=
  this <- comments_insert_statement obj ;;
  afterInsert this ;;
  ret this.

Definition apply_patch (p : CommentPatch) (c : Comment) : Comment :=
  mkComment (c_id c) (c_pageId c) (c_replyTo c)
            (default (c_content c) (pt_content p))
            (default (c_render c) (pt_render p))
            (c_authorId c) (c_name c) (c_email c) (c_ip c) (c_createdAt c)
            (default (c_updatedAt c) (pt_updatedAt p)).

Definition comments_findById (id : Z) (w : World) : option Comment :=
  List.find (λ c, c_id c =? id) (w_comments w).

(** The part of a patch that writes: [$beforeUpdate], then the
    statement. *)
Definition comments_patch_statement (id : Z) (obj : CommentPatch) : Async unit :=
  this <- beforeUpdate obj ;;
  modify (set_comments (map (λ c, if c_id c =? id then apply_patch this c else c))).

(** The ids [asFindQuery().select('id')] yields for a query on one id. *)
Definition comments_matched (id : Z) (w : World) : list Z :=
  c_id <$> filter (λ c, c_id c = id) (w_comments w).

(** [WIKI.models.comments.query().findById(id).patch(obj)] *)
Definition comments_patch (id : Z) (obj : CommentPatch) : Async unit :=
  comments_patch_statement id obj ;;
  afterUpdate (comments_matched id).

(** [WIKI.models.comments.query().findById(id).delete()] *)
Definition comments_delete (id : Z) : Async unit :=
  modify (set_comments (filter (λ c, c_id c ≠ id))).

End Queries.

(** ** A reference storage provider *)

Section ReferenceProvider.
Context `{Wiki}.
(** the renderer that derives the cached [render] text of a comment *)
Variable renderContent : string → string.

(** Modelled from the spec: [StorageProvider.getPageIdForComment]; the
    provider's module is not part of the source.  Section 4.4: a pure
    lookup with no side effects, not-found when no row has the id. *)
Definition reference_getPageIdFromCommentId (id : Z) (w : World) : option Z :=
  c_pageId <$> comments_findById id w.

(** Modelled from the spec: [StorageProvider.create(page, replyTo, content,
    author) → Comment]; the provider's module is not part of the source.
    It persists one row of the [Comment] model of section 3 (owning page,
    reply-to, content, rendered content, author identity, origin address)
    through the model class and returns the persisted comment. *)
Definition reference_newComment (a : CreateArgs) : Comment :=
  let user := au_user (cr_user a) in
  mkComment 0 (page_id (cr_page a)) (cr_replyTo a) (cr_content a)
            (renderContent (cr_content a)) (user_id user) (user_name user)
            (user_email user) (au_ip (cr_user a)) 0 0.

Definition reference_create (a : CreateArgs) : Async Comment :=
  comments_insert (reference_newComment a).

(** Modelled from the spec: [StorageProvider.update(id, content, page,
    author) → Comment]; the provider's module is not part of the source.
    Section 3: an update mutates content and [updatedAt]. *)
Definition reference_patch (a : UpdateArgs) : CommentPatch :=
  mkCommentPatch (Some (up_content a)) (Some (renderContent (up_content a))) None.

Definition reference_update (a : UpdateArgs) : Async Comment :=
  comments_patch (up_id a) (reference_patch a) ;;
  row <- gets (comments_findById (up_id a)) ;;
  match row with
  | Some row => ret row
  | None => throw CommentNotFound
  end.

(** Modelled from the spec: [StorageProvider.remove(id, page, author) →
    void]; the provider's module is not part of the source. *)
Definition reference_remove (a : RemoveArgs) : Async unit :=
  comments_delete (rm_id a).

Definition referenceProvider : CommentProvider :=
  {| provider_create := reference_create;
     provider_update := reference_update;
     provider_remove := reference_remove |}.

End ReferenceProvider.

(** ** Vocabulary of the specification *)

(** What [orderBy('createdAt', 'desc')] asks of the database: a row never
    precedes a strictly newer one. *)
Definition newer_first : relation Comment :=
  λ a b, c_createdAt b ≤ c_createdAt a.

#[global] Instance newer_first_dec a b : Decision (newer_first a b) :=
  Z_le_dec (c_createdAt b) (c_createdAt a).

(** The order of section 4.2 of the specification: creation time
    descending, ties broken by id descending. *)
Definition spec_newest_then_highest_id : relation Comment :=
  λ a b, c_createdAt b < c_createdAt a
         ∨ (c_createdAt a = c_createdAt b ∧ c_id b < c_id a).

#[global] Instance spec_newest_then_highest_id_dec a b :
  Decision (spec_newest_then_highest_id a b).
Proof. unfold spec_newest_then_highest_id. apply _. Defined.

(** The guest check of [postNewComment] lets the call through: either it
    is not run, or the validator returns [undefined]. *)
Definition guestAccepted `{Wiki} (a : NewCommentArgs) : Prop :=
  user_id (nc_user a) = 2 →
  validateGuest (JS.toLower (nc_guestEmail a)) (nc_guestName a) = None.

(** The content invariant of section 3: at least two characters once
    trimmed. *)
Definition contentPresent (content : string) : Prop :=
  (2 ≤ String.length (JS.trim content))%nat.

(** The same call with other guest fields. *)
Definition withGuestFields (name email : option string) (a : NewCommentArgs)
  : NewCommentArgs :=
  mkNewCommentArgs (nc_pageId a) (nc_replyTo a) (nc_content a) name email
                   (nc_user a) (nc_ip a).

(** The [comment] snapshot IndexSync computes for a page. *)
Definition commentSnapshot `{Wiki} (pageId : Z) (w : World) : Json :=
  JArr (JStr <$> (c_content <$>
          orderBy_createdAt_desc (comments_where_pageId (Some pageId) w))).

(** ** A concrete platform, used to run the model *)

Module Demo.

(** A database engine: merge sort on [createdAt], newest first. *)
Definition orderBy (l : list Comment) : list Comment :=
  merge_sort newer_first l.

(** Group 1 administers comments, group 2 may write them. *)
Definition grants (group : Z) : list string :=
  if group =? 1 then ["write:comments"; "manage:comments"]
  else if group =? 2 then ["write:comments"]
  else [].

Definition checkAccess (u : User) (permissions : list string) (_ : AccessContext)
  : bool :=
  existsb (λ p, existsb (λ g, existsb (String.eqb p) (grants g)) (user_groups u))
          permissions.

(** A coarse e-mail pattern: a non-empty local part, an at sign and a
    non-empty domain. *)
Definition emailPattern (s : string) : bool :=
  match index 0 "@" s with
  | Some n => (0 <? n)%nat && (n + 1 <? String.length s)%nat
  | None => false
  end.

Definition engine (up : bool) (p : IndexedPage) (ix : gmap Z IndexedPage)
  : option (gmap Z IndexedPage) :=
  if up then Some (<[page_id (ix_page p) := p]> ix) else None.

(** The platform; [up] tells whether the search engine accepts pushes. *)
Definition wiki (up : bool) : Wiki :=
  {| auth_checkAccess := checkAccess;
     validate_email_PATTERN := emailPattern;
     pages_cleanHTML := λ html, html;
     searchEngine_updated := engine up;
     orderBy_createdAt_desc := orderBy;
     commentProvider_getPageIdFromCommentId := reference_getPageIdFromCommentId;
     config_host := "https://wiki.example.org";
     env_NOTIFY_EMAIL := Some "ops@example.org";
     Date_tick := Z.succ |}.

Definition provider (up : bool) : CommentProvider :=
  @referenceProvider (wiki up) (λ s, s).

Definition admin : User := mkUser 1 (Some "Administrator") (Some "admin@example.org") [1].
Definition guest : User := mkUser 2 (Some "Guest") None [2].
Definition reader : User := mkUser 5 (Some "Reader") (Some "reader@example.org") [].

Definition page42 (e : gmap string Json) : Page :=
  mkPage 42 "a" "en" "Page A" e "<p>body</p>".

Definition comment (id : Z) (content : string) (createdAt : Z) : Comment :=
  mkComment id 42 0 content content 1 (Some "Administrator")
            (Some "admin@example.org") "10.0.0.1" createdAt createdAt.

Definition world (cs : list Comment) (e : gmap string Json) : World :=
  mkWorld cs 10 [page42 e] ∅ [] [] 1000.

(** A database whose pages table is empty. *)
Definition pagelessWorld (cs : list Comment) : World :=
  mkWorld cs 10 [] ∅ [] [] 1000.

Definition newComment (user : User) (content : string)
           (guestName guestEmail : option string) : NewCommentArgs :=
  mkNewCommentArgs 42 0 content guestName guestEmail user "10.0.0.1".

End Demo.

(** * Properties *)

(** ** Basic facts about the primitives *)

Lemma flat_Some_cons errors l : Validate.flat errors = Some l → ∃ m r, l = m :: r.
Proof.
  destruct errors as [|m r]; simpl; intros E; [discriminate|].
  injection E as <-. eauto.
Qed.

Lemma validateGuest_Some_cons `{Wiki} email name l :
  validateGuest email name = Some l → ∃ m r, l = m :: r.
Proof. apply flat_Some_cons. Qed.

Lemma find_page_id (i : Z) (l : list Page) (p : Page) :
  List.find (λ p, page_id p =? i) l = Some p → page_id p = i.
Proof.
  intros E. apply find_some in E as [_ E]. by apply Z.eqb_eq.
Qed.

Lemma pages_findById_id pid w p :
  pages_findById (Some pid) w = Some p → page_id p = pid.
Proof. apply find_page_id. Qed.

(** A patch of [extra] on the rows of one id shows through [findById]. *)
Lemma find_patch_extra (e : gmap string Json) (i j : Z) (l : list Page) :
  List.find (λ p, page_id p =? j)
            (map (λ p, if page_id p =? i then with_extra e p else p) l)
  = (λ p, if page_id p =? i then with_extra e p else p)
      <$> List.find (λ p, page_id p =? j) l.
Proof.
  induction l as [|p l IH]; simpl; [done|].
  destruct (page_id p =? i) eqn:Ei; simpl.
  - destruct (page_id p =? j) eqn:Ej; simpl; [by rewrite Ei | done].
  - destruct (page_id p =? j) eqn:Ej; simpl; [by rewrite Ei | done].
Qed.

(** The [forEach] loop of [indexComments] collects the contents in order. *)
Lemma push_contents (l : list Comment) (acc : list string) :
  foldl (λ acc ec, (acc ++ [c_content ec])%list) acc l
  = (acc ++ (c_content <$> l))%list.
Proof.
  revert acc. induction l as [|c l IH]; intros acc; simpl.
  - by rewrite app_nil_r.
  - rewrite IH. by rewrite <- app_assoc.
Qed.

(** The demonstration engine honours the contract of the query. *)
Lemma newer_first_total : Total newer_first.
Proof. intros a b. unfold newer_first. lia. Qed.

Lemma demo_orderBy_perm l : Demo.orderBy l ≡ₚ l.
Proof. apply merge_sort_Permutation. Qed.

Lemma demo_orderBy_sorted l : Sorted newer_first (Demo.orderBy l).
Proof. apply (Sorted_merge_sort newer_first (Total0 := newer_first_total)). Qed.

(** ** [postNewComment], branch by branch *)

Section PostNewComment.
Context `{Wiki} `{CommentProvider}.

Lemma postNewComment_guest_invalid a w m l :
  user_id (nc_user a) = 2 →
  validateGuest (JS.toLower (nc_guestEmail a)) (nc_guestName a) = Some (m :: l) →
  postNewComment a w = (Throw (InputInvalid m), w).
Proof.
  intros Hid Hv. unfold postNewComment, bind.
  rewrite Hid, Hv. reflexivity.
Qed.

Lemma guest_check_passes a w :
  guestAccepted a →
  (if user_id (nc_user a) =? 2 then
     match validateGuest (JS.toLower (nc_guestEmail a)) (nc_guestName a) with
     | Some (first :: _) => throw (InputInvalid first)
     | _ => ret tt
     end
   else ret tt) w = (Return tt, w).
Proof.
  intros Hg. destruct (user_id (nc_user a) =? 2) eqn:E; [|done].
  apply Z.eqb_eq in E. by rewrite (Hg E).
Qed.

Lemma postNewComment_content_missing a w :
  guestAccepted a →
  ¬ contentPresent (nc_content a) →
  postNewComment a w = (Throw CommentContentMissing, w).
Proof.
  intros Hg Hc. unfold postNewComment, bind.
  rewrite (guest_check_passes a w Hg).
  destruct (Nat.ltb_spec (String.length (JS.trim (nc_content a))) 2) as [_|Hge];
    [done|]. by destruct Hc.
Qed.

Lemma content_check_passes a w :
  contentPresent (nc_content a) →
  (if (String.length (JS.trim (nc_content a)) <? 2)%nat
   then throw CommentContentMissing else ret tt) w = (Return tt, w).
Proof.
  intros Hc. unfold contentPresent in Hc.
  destruct (Nat.ltb_spec (String.length (JS.trim (nc_content a))) 2); [lia|done].
Qed.

Lemma postNewComment_page_absent a w :
  guestAccepted a →
  contentPresent (nc_content a) →
  pages_findById (Some (nc_pageId a)) w = None →
  postNewComment a w = (Throw PageNotFound, w).
Proof.
  intros Hg Hc Hp. unfold postNewComment, bind.
  rewrite (guest_check_passes a w Hg), (content_check_passes a w Hc).
  unfold pages_getPageFromDb. by rewrite Hp.
Qed.

Lemma postNewComment_forbidden a w page :
  guestAccepted a →
  contentPresent (nc_content a) →
  pages_findById (Some (nc_pageId a)) w = Some page →
  auth_checkAccess (nc_user a) ["write:comments"] (accessContext page) = false →
  postNewComment a w = (Throw CommentPostForbidden, w).
Proof.
  intros Hg Hc Hp Ha. unfold postNewComment, bind.
  rewrite (guest_check_passes a w Hg), (content_check_passes a w Hc).
  unfold pages_getPageFromDb. by rewrite Hp, Ha.
Qed.

Lemma postNewComment_forwards a w page :
  guestAccepted a →
  contentPresent (nc_content a) →
  pages_findById (Some (nc_pageId a)) w = Some page →
  auth_checkAccess (nc_user a) ["write:comments"] (accessContext page) = true →
  postNewComment a w
  = provider_create
      (mkCreateArgs page (nc_replyTo a) (JS.trim (nc_content a)) (newCommentAuthor a))
      w.
Proof.
  intros Hg Hc Hp Ha. unfold postNewComment, bind.
  rewrite (guest_check_passes a w Hg), (content_check_passes a w Hc).
  unfold pages_getPageFromDb. by rewrite Hp, Ha.
Qed.

(** Whatever the arguments, a call on a page that does not exist fails
    and leaves the state as it was. *)
Lemma postNewComment_no_page_fails a w :
  pages_findById (Some (nc_pageId a)) w = None →
  ∃ e, postNewComment a w = (Throw e, w).
Proof.
  intros Hp.
  destruct (decide (user_id (nc_user a) = 2)) as [Hid|Hid].
  - destruct (validateGuest (JS.toLower (nc_guestEmail a)) (nc_guestName a))
      as [l|] eqn:Hv.
    + destruct (validateGuest_Some_cons _ _ _ Hv) as (m & r & ->).
      eexists. by eapply postNewComment_guest_invalid.
    + destruct (decide (contentPresent (nc_content a))) as [Hc|Hc].
      * eexists. apply postNewComment_page_absent; [by intros _|done|done].
      * eexists. apply postNewComment_content_missing; [by intros _|done].
  - destruct (decide (contentPresent (nc_content a))) as [Hc|Hc].
    + eexists. apply postNewComment_page_absent; [by intros ?|done|done].
    + eexists. apply postNewComment_content_missing; [by intros ?|done].
Qed.

End PostNewComment.

(** ** [updateComment] and [deleteComment], branch by branch *)

Section UpdateDelete.
Context `{Wiki} `{CommentProvider}.

Lemma updateComment_comment_not_found a w :
  JS.truthy_number (commentProvider_getPageIdFromCommentId (uc_id a) w) = false →
  updateComment a w = (Throw CommentNotFound, w).
Proof. intros Hn. unfold updateComment, bind, gets. by rewrite Hn. Qed.

Lemma updateComment_page_absent a w :
  JS.truthy_number (commentProvider_getPageIdFromCommentId (uc_id a) w) = true →
  pages_findById (commentProvider_getPageIdFromCommentId (uc_id a) w) w = None →
  updateComment a w = (Throw PageNotFound, w).
Proof.
  intros Hn Hp. unfold updateComment, bind, gets, pages_getPageFromDb.
  rewrite Hn. cbn [negb]. by rewrite Hp.
Qed.

Lemma updateComment_forbidden a w page :
  JS.truthy_number (commentProvider_getPageIdFromCommentId (uc_id a) w) = true →
  pages_findById (commentProvider_getPageIdFromCommentId (uc_id a) w) w = Some page →
  auth_checkAccess (uc_user a) ["manage:comments"] (accessContext page) = false →
  updateComment a w = (Throw CommentManageForbidden, w).
Proof.
  intros Hn Hp Ha. unfold updateComment, bind, gets, pages_getPageFromDb.
  rewrite Hn. cbn [negb]. by rewrite Hp, Ha.
Qed.

(** Past the authorization gate the content reaches the provider as the
    caller gave it. *)
Lemma updateComment_forwards a w page :
  JS.truthy_number (commentProvider_getPageIdFromCommentId (uc_id a) w) = true →
  pages_findById (commentProvider_getPageIdFromCommentId (uc_id a) w) w = Some page →
  auth_checkAccess (uc_user a) ["manage:comments"] (accessContext page) = true →
  updateComment a w
  = provider_update
      (mkUpdateArgs (uc_id a) (uc_content a) page (mkAuthor (uc_user a) (uc_ip a))) w.
Proof.
  intros Hn Hp Ha. unfold updateComment, bind, gets, pages_getPageFromDb.
  rewrite Hn. cbn [negb]. by rewrite Hp, Ha.
Qed.

Lemma deleteComment_comment_not_found a w :
  JS.truthy_number (commentProvider_getPageIdFromCommentId (dc_id a) w) = false →
  deleteComment a w = (Throw CommentNotFound, w).
Proof. intros Hn. unfold deleteComment, bind, gets. by rewrite Hn. Qed.

Lemma deleteComment_page_absent a w :
  JS.truthy_number (commentProvider_getPageIdFromCommentId (dc_id a) w) = true →
  pages_findById (commentProvider_getPageIdFromCommentId (dc_id a) w) w = None →
  deleteComment a w = (Throw PageNotFound, w).
Proof.
  intros Hn Hp. unfold deleteComment, bind, gets, pages_getPageFromDb.
  rewrite Hn. cbn [negb]. by rewrite Hp.
Qed.

Lemma deleteComment_forbidden a w page :
  JS.truthy_number (commentProvider_getPageIdFromCommentId (dc_id a) w) = true →
  pages_findById (commentProvider_getPageIdFromCommentId (dc_id a) w) w = Some page →
  auth_checkAccess (dc_user a) ["manage:comments"] (accessContext page) = false →
  deleteComment a w = (Throw CommentManageForbidden, w).
Proof.
  intros Hn Hp Ha. unfold deleteComment, bind, gets, pages_getPageFromDb.
  rewrite Hn. cbn [negb]. by rewrite Hp, Ha.
Qed.

(** Past the authorization gate [deleteComment] is the provider's
    [remove] and nothing more. *)
Lemma deleteComment_forwards a w page :
  JS.truthy_number (commentProvider_getPageIdFromCommentId (dc_id a) w) = true →
  pages_findById (commentProvider_getPageIdFromCommentId (dc_id a) w) w = Some page →
  auth_checkAccess (dc_user a) ["manage:comments"] (accessContext page) = true →
  deleteComment a w
  = provider_remove
      (mkRemoveArgs (dc_id a) page (mkAuthor (dc_user a) (dc_ip a))) w.
Proof.
  intros Hn Hp Ha. unfold deleteComment, bind, gets, pages_getPageFromDb.
  rewrite Hn. cbn [negb]. by rewrite Hp, Ha.
Qed.

End UpdateDelete.

(** ** [indexComments] *)

Section IndexComments.
Context `{Wiki}.

(** The state after the metadata patch of [indexComments]. *)
Lemma indexComments_absent_page pageId w :
  pages_findById pageId w = None →
  ∃ e, indexComments pageId w = (Throw e, w).
Proof.
  intros Hp. unfold indexComments, bind, gets. cbn [JS.truthy_array].
  rewrite Hp. by eexists.
Qed.

(** With the page present the run patches [extra] and then pushes the
    re-read row to the search engine, whatever the comment set is. *)
Lemma indexComments_present pid w page :
  pages_findById (Some pid) w = Some page →
  let e := <["comment" := commentSnapshot pid w]> (page_extra page) in
  let w1 :=
    set_pages (map (λ p, if page_id p =? pid then with_extra e p else p)) w in
  indexComments (Some pid) w
  = searchEngine_push
      (mkIndexedPage (with_extra e page) (pages_cleanHTML (page_render page))) w1.
Proof.
  intros Hp e w1. pose proof (pages_findById_id _ _ _ Hp) as Hid.
  unfold indexComments, bind, gets. cbn [JS.truthy_array]. rewrite Hp.
  unfold pages_patch_extra, modify. rewrite push_contents, app_nil_l.
  rewrite Hid. fold (commentSnapshot pid w). fold e. fold w1.
  assert (pages_findById (Some pid) w1 = Some (with_extra e page)) as ->.
  { unfold pages_findById, w1. simpl. rewrite find_patch_extra.
    unfold pages_findById in Hp. rewrite Hp. simpl. by rewrite Hid, Z.eqb_refl. }
  reflexivity.
Qed.

Lemma searchEngine_push_frame p w :
  let w' := snd (searchEngine_push p w) in
  w_comments w' = w_comments w ∧ w_pages w' = w_pages w
  ∧ w_log w' = w_log w ∧ w_outbox w' = w_outbox w.
Proof.
  unfold searchEngine_push.
  by destruct (searchEngine_updated p (w_searchIndex w)).
Qed.

(** IndexSync never writes to the comments table, the logger or the
    mailer. *)
Lemma indexComments_frame pageId w :
  let w' := snd (indexComments pageId w) in
  w_comments w' = w_comments w ∧ w_log w' = w_log w ∧ w_outbox w' = w_outbox w.
Proof.
  destruct (pages_findById pageId w) as [page|] eqn:Hp.
  - destruct pageId as [pid|]; [|done].
    simpl. rewrite (indexComments_present _ _ _ Hp).
    match goal with |- context [searchEngine_push ?p ?w1] =>
      destruct (searchEngine_push_frame p w1) as (-> & _ & -> & ->) end.
    done.
  - destruct (indexComments_absent_page _ _ Hp) as [e ->]. done.
Qed.

Lemma indexComments_pages pid w page :
  pages_findById (Some pid) w = Some page →
  w_pages (snd (indexComments (Some pid) w))
  = map (λ p, if page_id p =? pid
              then with_extra (<["comment" := commentSnapshot pid w]> (page_extra page)) p
              else p) (w_pages w).
Proof.
  intros Hp. rewrite (indexComments_present _ _ _ Hp).
  match goal with |- context [searchEngine_push ?p ?w1] =>
    destruct (searchEngine_push_frame p w1) as (_ & -> & _) end.
  done.
Qed.

Lemma indexComments_findById pid w page :
  pages_findById (Some pid) w = Some page →
  pages_findById (Some pid) (snd (indexComments (Some pid) w))
  = Some (with_extra (<["comment" := commentSnapshot pid w]> (page_extra page)) page).
Proof.
  intros Hp. unfold pages_findById at 1.
  rewrite (indexComments_pages _ _ _ Hp), find_patch_extra.
  unfold pages_findById in Hp. rewrite Hp. simpl.
  by rewrite (find_page_id _ _ _ Hp), Z.eqb_refl.
Qed.

End IndexComments.

(** ** Input validation of [postNewComment] *)

(** C5, as amended.  When the trimmed content is shorter than two
    characters, create fails and leaves the state as it was: with
    [CommentContentMissing] when the guest check lets the call through
    (the user id is not 2, or the guest fields validate), and with
    [InputInvalid] carrying the first validation message when the author is
    the guest user and the guest fields are invalid, because the guest check
    runs before the content check. *)
Theorem short_content_fails_create `{Wiki} `{CommentProvider} a w :
  ¬ contentPresent (nc_content a) →
  (guestAccepted a → postNewComment a w = (Throw CommentContentMissing, w))
  ∧ (∀ m l,
       user_id (nc_user a) = 2 →
       validateGuest (JS.toLower (nc_guestEmail a)) (nc_guestName a) = Some (m :: l) →
       postNewComment a w = (Throw (InputInvalid m), w)).
Proof.
  intros Hc. split.
  - intros Hg. by apply postNewComment_content_missing.
  - intros m l Hid Hv. by eapply postNewComment_guest_invalid.
Qed.

Lemma short_content_fails_create_witness :
  @postNewComment (Demo.wiki true) (Demo.provider true)
    (Demo.newComment Demo.admin " x " None None) (Demo.world [] ∅)
  = (Throw CommentContentMissing, Demo.world [] ∅)
  ∧ @postNewComment (Demo.wiki true) (Demo.provider true)
      (Demo.newComment Demo.guest " x " (Some "Al") (Some "not-an-email"))
      (Demo.world [] ∅)
    = (Throw (InputInvalid "Email is not a valid email"), Demo.world [] ∅).
Proof.
  split.
  - apply (@short_content_fails_create (Demo.wiki true) (Demo.provider true)
             (Demo.newComment Demo.admin " x " None None) (Demo.world [] ∅)).
    + unfold contentPresent. vm_compute. lia.
    + intros E. vm_compute in E. discriminate E.
  - eapply (@short_content_fails_create (Demo.wiki true) (Demo.provider true)
              (Demo.newComment Demo.guest " x " (Some "Al") (Some "not-an-email"))
              (Demo.world [] ∅)).
    + unfold contentPresent. vm_compute. lia.
    + reflexivity.
    + vm_compute. reflexivity.
Defined.

(** C5 as stated fails: a guest whose identity fields are invalid and whose
    content is too short is answered [InputInvalid], not
    [CommentContentMissing]. *)
Lemma short_content_invalid_guest_counterexample :
  ¬ (∀ (W : Wiki) (P : CommentProvider) a w,
       ¬ contentPresent (nc_content a) →
       postNewComment a w = (Throw CommentContentMissing, w)).
Proof.
  intros Hclaim.
  specialize (Hclaim (Demo.wiki true) (Demo.provider true)
                (Demo.newComment Demo.guest "x" None None) (Demo.world [] ∅)).
  assert (¬ contentPresent "x") as Hshort.
  { unfold contentPresent. vm_compute. lia. }
  specialize (Hclaim Hshort). vm_compute in Hclaim. discriminate Hclaim.
Qed.

(** C6.  A guest (user id 2) who supplies no e-mail address is refused with
    [InputInvalid]: the missing address is lowered to the empty string,
    which the e-mail pattern does not match, and the e-mail rule is the
    first to report.  Nothing is persisted: the state is unchanged, for any
    storage provider.  An address given as the empty string fares the same,
    and a guest who supplies no name is refused too. *)
Theorem guest_without_email_is_rejected `{Wiki} `{CommentProvider} a w :
  user_id (nc_user a) = 2 →
  (nc_guestEmail a = None ∨ nc_guestEmail a = Some "" →
   validate_email_PATTERN "" = false →
   postNewComment a w = (Throw (InputInvalid "Email is not a valid email"), w))
  ∧ (nc_guestName a = None →
     ∃ m, postNewComment a w = (Throw (InputInvalid m), w)).
Proof.
  intros Hid. split.
  - intros He Hpat. eapply postNewComment_guest_invalid; [done|].
    assert (JS.toLower (nc_guestEmail a) = "") as -> by by destruct He as [-> | ->].
    unfold validateGuest. simpl. rewrite Hpat. reflexivity.
  - intros Hn.
    destruct (validateGuest (JS.toLower (nc_guestEmail a)) (nc_guestName a))
      as [l|] eqn:Hv.
    + destruct (validateGuest_Some_cons _ _ _ Hv) as (m & r & ->).
      exists m. by eapply postNewComment_guest_invalid.
    + exfalso. rewrite Hn in Hv. unfold validateGuest in Hv. simpl in Hv.
      match type of Hv with Validate.flat ?errors = None =>
        destruct errors as [|m r] eqn:E; [|discriminate Hv] end.
      apply app_eq_nil in E as [_ E]. discriminate E.
Qed.

Lemma guest_without_email_is_rejected_witness :
  @postNewComment (Demo.wiki true) (Demo.provider true)
    (Demo.newComment Demo.guest "Hello world" (Some "Al") None) (Demo.world [] ∅)
  = (Throw (InputInvalid "Email is not a valid email"), Demo.world [] ∅).
Proof.
  apply (@guest_without_email_is_rejected (Demo.wiki true) (Demo.provider true)
           (Demo.newComment Demo.guest "Hello world" (Some "Al") None)
           (Demo.world [] ∅)); [reflexivity | by left | reflexivity].
Defined.


(** ** Lookups that come back empty *)

(** C7.  When the owning page is absent, create, update and delete fail
    with [PageNotFound]; update and delete fail with [CommentNotFound] when
    the comment id resolves to no page id.  In each case the state is the one
    the call started from, and this for every storage provider: none of the
    provider's mutations is run.  For create the page lookup is reached once
    the guest check and the content check have passed; on an absent page
    create fails without a state change in any case. *)
Theorem absent_page_or_comment_fails_without_mutation
        `{Wiki} `{CommentProvider} (w : World) :
  (∀ a, pages_findById (Some (nc_pageId a)) w = None →
        (∃ e, postNewComment a w = (Throw e, w))
        ∧ (guestAccepted a → contentPresent (nc_content a) →
           postNewComment a w = (Throw PageNotFound, w)))
  ∧ (∀ a, JS.truthy_number (commentProvider_getPageIdFromCommentId (uc_id a) w) = false →
          updateComment a w = (Throw CommentNotFound, w))
  ∧ (∀ a, JS.truthy_number (commentProvider_getPageIdFromCommentId (uc_id a) w) = true →
          pages_findById (commentProvider_getPageIdFromCommentId (uc_id a) w) w = None →
          updateComment a w = (Throw PageNotFound, w))
  ∧ (∀ a, JS.truthy_number (commentProvider_getPageIdFromCommentId (dc_id a) w) = false →
          deleteComment a w = (Throw CommentNotFound, w))
  ∧ (∀ a, JS.truthy_number (commentProvider_getPageIdFromCommentId (dc_id a) w) = true →
          pages_findById (commentProvider_getPageIdFromCommentId (dc_id a) w) w = None →
          deleteComment a w = (Throw PageNotFound, w)).
Proof.
  split; [|split; [|split; [|split]]].
  - intros a Hp. split.
    + by apply postNewComment_no_page_fails.
    + intros Hg Hc. by apply postNewComment_page_absent.
  - intros a. apply updateComment_comment_not_found.
  - intros a. apply updateComment_page_absent.
  - intros a. apply deleteComment_comment_not_found.
  - intros a. apply deleteComment_page_absent.
Qed.

Lemma absent_page_or_comment_fails_without_mutation_witness :
  let w := Demo.pagelessWorld [Demo.comment 7 "Hello world" 100] in
  @postNewComment (Demo.wiki true) (Demo.provider true)
    (Demo.newComment Demo.admin "Hello world" None None) w
  = (Throw PageNotFound, w)
  ∧ @updateComment (Demo.wiki true) (Demo.provider true)
      (mkUpdateCommentArgs 8 "Hi" Demo.admin "10.0.0.1") w
    = (Throw CommentNotFound, w)
  ∧ @updateComment (Demo.wiki true) (Demo.provider true)
      (mkUpdateCommentArgs 7 "Hi" Demo.admin "10.0.0.1") w
    = (Throw PageNotFound, w)
  ∧ @deleteComment (Demo.wiki true) (Demo.provider true)
      (mkDeleteCommentArgs 8 Demo.admin "10.0.0.1") w
    = (Throw CommentNotFound, w)
  ∧ @deleteComment (Demo.wiki true) (Demo.provider true)
      (mkDeleteCommentArgs 7 Demo.admin "10.0.0.1") w
    = (Throw PageNotFound, w).
Proof.
  intros w.
  destruct (@absent_page_or_comment_fails_without_mutation
              (Demo.wiki true) (Demo.provider true) w)
    as (Hcreate & Hupd1 & Hupd2 & Hdel1 & Hdel2).
  split; [|split; [|split; [|split]]].
  - apply Hcreate.
    + reflexivity.
    + intros E. vm_compute in E. discriminate E.
    + unfold contentPresent. vm_compute. lia.
  - apply Hupd1. reflexivity.
  - apply Hupd2; reflexivity.
  - apply Hdel1. reflexivity.
  - apply Hdel2; reflexivity.
Defined.

(** ** Guest handling *)

(** C10.  Guest handling in [postNewComment] is decided by the user id
    alone.  When the id is not 2 the guest fields are not looked at: the
    result does not depend on them, and the author forwarded to the
    provider's [create] is the caller's user with the origin address added.
    When the id is 2 the guest fields are validated, a failure is reported as
    [InputInvalid] with the first message, and the forwarded author carries
    the guest name and e-mail in place of the user's. *)
Theorem guest_handling_decided_by_user_id `{Wiki} `{CommentProvider} a w :
  (user_id (nc_user a) ≠ 2 →
   newCommentAuthor a = mkAuthor (nc_user a) (nc_ip a)
   ∧ (∀ name email,
        postNewComment (withGuestFields name email a) w = postNewComment a w)
   ∧ (∀ page,
        contentPresent (nc_content a) →
        pages_findById (Some (nc_pageId a)) w = Some page →
        auth_checkAccess (nc_user a) ["write:comments"] (accessContext page) = true →
        postNewComment a w
        = provider_create
            (mkCreateArgs page (nc_replyTo a) (JS.trim (nc_content a))
                          (mkAuthor (nc_user a) (nc_ip a))) w))
  ∧ (user_id (nc_user a) = 2 →
     newCommentAuthor a
     = mkAuthor (mkUser 2 (nc_guestName a) (nc_guestEmail a)
                        (user_groups (nc_user a))) (nc_ip a)
     ∧ (∀ m l,
          validateGuest (JS.toLower (nc_guestEmail a)) (nc_guestName a)
          = Some (m :: l) →
          postNewComment a w = (Throw (InputInvalid m), w))
     ∧ (∀ page,
          validateGuest (JS.toLower (nc_guestEmail a)) (nc_guestName a) = None →
          contentPresent (nc_content a) →
          pages_findById (Some (nc_pageId a)) w = Some page →
          auth_checkAccess (nc_user a) ["write:comments"] (accessContext page) = true →
          postNewComment a w
          = provider_create
              (mkCreateArgs page (nc_replyTo a) (JS.trim (nc_content a))
                 (mkAuthor (mkUser 2 (nc_guestName a) (nc_guestEmail a)
                                   (user_groups (nc_user a))) (nc_ip a))) w)).
Proof.
  split.
  - intros Hid.
    assert ((user_id (nc_user a) =? 2) = false) as Hne by by apply Z.eqb_neq.
    assert (newCommentAuthor a = mkAuthor (nc_user a) (nc_ip a)) as Hau.
    { unfold newCommentAuthor. by rewrite Hne. }
    split; [done|]. split.
    + intros name email. unfold postNewComment, bind, newCommentAuthor.
      simpl. by rewrite Hne.
    + intros page Hc Hp Ha. rewrite <- Hau.
      by apply postNewComment_forwards; [intros ?|..].
  - intros Hid.
    assert (newCommentAuthor a
            = mkAuthor (mkUser 2 (nc_guestName a) (nc_guestEmail a)
                               (user_groups (nc_user a))) (nc_ip a)) as Hau.
    { unfold newCommentAuthor. by rewrite Hid. }
    split; [done|]. split.
    + intros m l Hv. by eapply postNewComment_guest_invalid.
    + intros page Hv Hc Hp Ha. rewrite <- Hau.
      by apply postNewComment_forwards; [intros _|..].
Qed.

Lemma guest_handling_decided_by_user_id_witness :
  (∀ name email,
     @postNewComment (Demo.wiki true) (Demo.provider true)
       (withGuestFields name email (Demo.newComment Demo.admin "Hello world" None None))
       (Demo.world [] ∅)
     = @postNewComment (Demo.wiki true) (Demo.provider true)
         (Demo.newComment Demo.admin "Hello world" None None) (Demo.world [] ∅))
  ∧ @postNewComment (Demo.wiki true) (Demo.provider true)
      (Demo.newComment Demo.guest "Hello world" (Some "Al") (Some "Al@Example.org"))
      (Demo.world [] ∅)
    = @provider_create (Demo.provider true)
        (mkCreateArgs (Demo.page42 ∅) 0 "Hello world"
           (mkAuthor (mkUser 2 (Some "Al") (Some "Al@Example.org") [2]) "10.0.0.1"))
        (Demo.world [] ∅).
Proof.
  split.
  - apply (@guest_handling_decided_by_user_id (Demo.wiki true) (Demo.provider true)
             (Demo.newComment Demo.admin "Hello world" None None) (Demo.world [] ∅)).
    vm_compute. discriminate.
  - apply (@guest_handling_decided_by_user_id (Demo.wiki true) (Demo.provider true)
             (Demo.newComment Demo.guest "Hello world" (Some "Al") (Some "Al@Example.org"))
             (Demo.world [] ∅)).
    + reflexivity.
    + vm_compute. reflexivity.
    + unfold contentPresent. vm_compute. lia.
    + reflexivity.
    + reflexivity.
Defined.

(** ** The metadata snapshot written by IndexSync *)

(** C9.  For a page that exists and has comments, IndexSync replaces the
    [comment] field of the page's [extra] bag by the list of the contents of
    the page's current comments, in the order the query returned them (all
    of them, each once, when the database returns the rows it was asked for),
    and leaves every other field of the bag, and every other column of the page,
    as it was.  This holds whether or not the push to the search engine
    succeeds afterwards. *)
Theorem indexComments_replaces_comment_field_only `{Wiki} pid w page :
  pages_findById (Some pid) w = Some page →
  comments_where_pageId (Some pid) w ≠ [] →
  ∃ page',
    pages_findById (Some pid) (snd (indexComments (Some pid) w)) = Some page'
    ∧ page_extra page' !! "comment"
      = Some (JArr (JStr <$> (c_content <$>
                orderBy_createdAt_desc (comments_where_pageId (Some pid) w))))
    ∧ ((∀ l, orderBy_createdAt_desc l ≡ₚ l) →
       c_content <$> orderBy_createdAt_desc (comments_where_pageId (Some pid) w)
       ≡ₚ c_content <$> comments_where_pageId (Some pid) w)
    ∧ (∀ k, k ≠ "comment" → page_extra page' !! k = page_extra page !! k)
    ∧ page_id page' = page_id page
    ∧ page_path page' = page_path page
    ∧ page_localeCode page' = page_localeCode page
    ∧ page_title page' = page_title page
    ∧ page_render page' = page_render page.
Proof.
  intros Hp _. eexists. split; [by apply indexComments_findById|].
  simpl. split; [by rewrite lookup_insert_eq|].
  split; [intros Hperm; by rewrite Hperm|].
  split; [|done]. intros k Hk. by rewrite lookup_insert_ne.
Qed.

Lemma indexComments_replaces_comment_field_only_witness :
  let w := Demo.world [Demo.comment 1 "first" 100; Demo.comment 2 "second" 200]
                      (<["comment" := JArr [JStr "stale"]]> {["views" := JNum 3]}) in
  ∃ page',
    pages_findById (Some 42) (snd (@indexComments (Demo.wiki true) (Some 42) w))
    = Some page'
    ∧ page_extra page' !! "comment" = Some (JArr [JStr "second"; JStr "first"])
    ∧ ["second"; "first"] ≡ₚ c_content <$> comments_where_pageId (Some 42) w
    ∧ page_extra page' !! "views" = Some (JNum 3).
Proof.
  intros w.
  destruct (@indexComments_replaces_comment_field_only (Demo.wiki true) 42 w
              (Demo.page42 (<["comment" := JArr [JStr "stale"]]> {["views" := JNum 3]})))
    as (page' & Hfind & Hcomment & Hall & Hother & _).
  - reflexivity.
  - discriminate.
  - exists page'. split; [exact Hfind|]. split; [|split].
    + rewrite Hcomment. vm_compute. reflexivity.
    + exact (Hall demo_orderBy_perm).
    + rewrite Hother; [|discriminate]. vm_compute. reflexivity.
Defined.

(** C3: what the source does on an empty comment set.  The query result
    is an array, and an empty array is truthy, so the guard
    [if (existingComments)] takes the indexing branch: the [comment] field is
    overwritten with the empty list, the page is pushed to the search engine
    and nothing is logged. *)
Theorem indexComments_empty_set_rewrites_snapshot `{Wiki} pid w page :
  pages_findById (Some pid) w = Some page →
  comments_where_pageId (Some pid) w = [] →
  orderBy_createdAt_desc [] = [] →
  let cleared := with_extra (<["comment" := JArr []]> (page_extra page)) page in
  indexComments (Some pid) w
  = searchEngine_push
      (mkIndexedPage cleared (pages_cleanHTML (page_render page)))
      (set_pages (map (λ p, if page_id p =? pid
                            then with_extra (page_extra cleared) p else p)) w)
  ∧ pages_findById (Some pid) (snd (indexComments (Some pid) w)) = Some cleared
  ∧ w_log (snd (indexComments (Some pid) w)) = w_log w.
Proof.
  intros Hp Hnone Hsort cleared.
  assert (commentSnapshot pid w = JArr []) as Hsnap.
  { unfold commentSnapshot. by rewrite Hnone, Hsort. }
  split; [|split].
  - rewrite (indexComments_present _ _ _ Hp). by rewrite Hsnap.
  - rewrite (indexComments_findById _ _ _ Hp). by rewrite Hsnap.
  - apply indexComments_frame.
Qed.

Lemma indexComments_empty_set_rewrites_snapshot_witness :
  let e := <["comment" := JArr [JStr "Hello world"]]> {["views" := JNum 3]} in
  let w := Demo.world [] e in
  let w' := snd (@indexComments (Demo.wiki true) (Some 42) w) in
  (page_extra <$> pages_findById (Some 42) w') = Some (<["comment" := JArr []]> e)
  ∧ w_log w' = []
  ∧ w_searchIndex w' !! 42
    = Some (mkIndexedPage (Demo.page42 (<["comment" := JArr []]> e)) "<p>body</p>").
Proof.
  intros e w w'.
  destruct (@indexComments_empty_set_rewrites_snapshot (Demo.wiki true) 42 w
              (Demo.page42 e)) as (Hrun & Hfind & Hlog); [reflexivity..|].
  split; [|split].
  - unfold w'. rewrite Hfind. reflexivity.
  - unfold w'. rewrite Hlog. reflexivity.
  - unfold w'. rewrite Hrun. vm_compute. reflexivity.
Defined.

(** ** Idempotence and order of the snapshot *)

Lemma with_extra_idem e p : with_extra e (with_extra e p) = with_extra e p.
Proof. done. Qed.

Lemma patch_extra_idem (e : gmap string Json) (i : Z) (l : list Page) :
  map (λ p, if page_id p =? i then with_extra e p else p)
      (map (λ p, if page_id p =? i then with_extra e p else p) l)
  = map (λ p, if page_id p =? i then with_extra e p else p) l.
Proof.
  rewrite map_map. apply map_ext. intros p.
  destruct (page_id p =? i) eqn:E; simpl; by rewrite E.
Qed.

Lemma commentSnapshot_after_indexComments `{Wiki} pid pageId w :
  commentSnapshot pid (snd (indexComments pageId w)) = commentSnapshot pid w.
Proof.
  unfold commentSnapshot, comments_where_pageId.
  by destruct (indexComments_frame pageId w) as (-> & _).
Qed.

Lemma indexComments_twice_pages `{Wiki} pageId w :
  w_pages (snd (indexComments pageId (snd (indexComments pageId w))))
  = w_pages (snd (indexComments pageId w)).
Proof.
  destruct (pages_findById pageId w) as [page|] eqn:Hp.
  - destruct pageId as [pid|]; [|done].
    pose proof (indexComments_findById _ _ _ Hp) as Hp1.
    rewrite (indexComments_pages _ _ _ Hp1).
    rewrite commentSnapshot_after_indexComments. simpl.
    rewrite insert_insert_eq.
    rewrite (indexComments_pages _ _ _ Hp). apply patch_extra_idem.
  - destruct (indexComments_absent_page _ _ Hp) as [e He].
    rewrite He. simpl. by rewrite He.
Qed.

(** C8, as amended.  IndexSync is idempotent: a second run right after a
    first one leaves the pages table, and so the page's metadata snapshot, as
    the first run left it; both runs write the same [comment] list.  The list
    holds the contents of the page's comments in the order the query returns
    them: newest first when the database honours [ORDER BY createdAt DESC],
    with no rule for comments created at the same instant, since the query
    names no second sort key. *)
Theorem indexComments_idempotent `{Wiki} pid w :
  let w1 := snd (indexComments (Some pid) w) in
  let w2 := snd (indexComments (Some pid) w1) in
  w_pages w2 = w_pages w1
  ∧ (∀ page,
       pages_findById (Some pid) w = Some page →
       ∃ page1,
         pages_findById (Some pid) w1 = Some page1
         ∧ pages_findById (Some pid) w2 = Some page1
         ∧ page_extra page1 !! "comment" = Some (commentSnapshot pid w))
  ∧ ((∀ l, orderBy_createdAt_desc l ≡ₚ l) →
     (∀ l, Sorted newer_first (orderBy_createdAt_desc l)) →
     ∃ rows,
       commentSnapshot pid w = JArr (JStr <$> (c_content <$> rows))
       ∧ rows ≡ₚ comments_where_pageId (Some pid) w
       ∧ Sorted newer_first rows).
Proof.
  intros w1 w2. split; [apply indexComments_twice_pages|]. split.
  - intros page Hp. eexists. split; [by apply indexComments_findById|].
    split.
    + pose proof (indexComments_findById _ _ _ Hp) as Hp1.
      unfold w2, w1, pages_findById. rewrite indexComments_twice_pages.
      exact Hp1.
    + simpl. by rewrite lookup_insert_eq.
  - intros Hperm Hsorted.
    exists (orderBy_createdAt_desc (comments_where_pageId (Some pid) w)).
    split; [done|]. split; [apply Hperm | apply Hsorted].
Qed.

Lemma indexComments_idempotent_witness :
  let w := Demo.world [Demo.comment 1 "first" 100; Demo.comment 2 "second" 200] ∅ in
  let w1 := snd (@indexComments (Demo.wiki true) (Some 42) w) in
  let w2 := snd (@indexComments (Demo.wiki true) (Some 42) w1) in
  w_pages w2 = w_pages w1
  ∧ (page_extra <$> pages_findById (Some 42) w2)
    = Some {["comment" := JArr [JStr "second"; JStr "first"]]}
  ∧ ∃ rows,
      @commentSnapshot (Demo.wiki true) 42 w = JArr (JStr <$> (c_content <$> rows))
      ∧ rows ≡ₚ comments_where_pageId (Some 42) w
      ∧ Sorted newer_first rows.
Proof.
  intros w w1 w2.
  destruct (@indexComments_idempotent (Demo.wiki true) 42 w) as (Hsame & Hsnap & Horder).
  split; [exact Hsame|]. split.
  - destruct (Hsnap (Demo.page42 ∅)) as (page1 & _ & Hfind & _); [reflexivity|].
    vm_compute. reflexivity.
  - apply Horder; [exact demo_orderBy_perm | exact demo_orderBy_sorted].
Defined.

(** C8 as stated fails: a database that honours [ORDER BY createdAt DESC]
    may return two comments of the same instant with the lower id first, and
    the snapshot then lists them in that order. *)
Lemma ties_not_broken_by_id_counterexample :
  ¬ (∀ (W : Wiki),
       (∀ l, orderBy_createdAt_desc l ≡ₚ l) →
       (∀ l, Sorted newer_first (orderBy_createdAt_desc l)) →
       ∀ pid w,
         Sorted spec_newest_then_highest_id
                (orderBy_createdAt_desc (comments_where_pageId (Some pid) w))).
Proof.
  intros Hclaim.
  specialize (Hclaim (Demo.wiki true) demo_orderBy_perm demo_orderBy_sorted 42
                (Demo.world [Demo.comment 1 "first" 100; Demo.comment 2 "second" 100;
                             Demo.comment 3 "third" 200] ∅)).
  revert Hclaim. refine (bool_decide_eq_false_1 _ _). vm_compute. reflexivity.
Qed.

(** The snapshot of that run: the comment with id 1 precedes the one with
    id 2, both created at the same instant. *)
Example tied_comments_snapshot :
  @commentSnapshot (Demo.wiki true) 42
    (Demo.world [Demo.comment 1 "first" 100; Demo.comment 2 "second" 100;
                 Demo.comment 3 "third" 200] ∅)
  = JArr [JStr "third"; JStr "first"; JStr "second"].
Proof. vm_compute. reflexivity. Qed.

(** ** Post-commit hooks *)

Section Hooks.
Context `{Wiki}.

Lemma sendNotify_comments pageId content author w :
  w_comments (snd (sendNotify pageId content author w)) = w_comments w.
Proof.
  unfold sendNotify, bind, gets.
  by destruct (pages_findById (Some pageId) w).
Qed.

(** Neither hook writes to the comments table: a failing hook undoes
    nothing. *)
Lemma afterInsert_comments this w :
  w_comments (snd (afterInsert this w)) = w_comments w.
Proof.
  unfold afterInsert, bind.
  destruct (indexComments_frame (Some (c_pageId this)) w) as (Hc & _).
  destruct (indexComments (Some (c_pageId this)) w) as [[[]|e] w1]; simpl in *.
  - by rewrite sendNotify_comments.
  - done.
Qed.

Lemma afterUpdate_comments asFindQuery w :
  w_comments (snd (afterUpdate asFindQuery w)) = w_comments w.
Proof.
  unfold afterUpdate, bind, gets.
  destruct (asFindQuery w) as [|comment0 ?]; [done|].
  apply indexComments_frame.
Qed.

(** [$afterInsert] awaits IndexSync and has no handler around it: when
    IndexSync throws, the hook throws the same error and the notification
    is not sent. *)
Lemma afterInsert_index_failure this w e w' :
  indexComments (Some (c_pageId this)) w = (Throw e, w') →
  afterInsert this w = (Throw e, w') ∧ w_outbox w' = w_outbox w.
Proof.
  intros Hix. split.
  - unfold afterInsert, bind. by rewrite Hix.
  - destruct (indexComments_frame (Some (c_pageId this)) w) as (_ & _ & Ho).
    by rewrite Hix in Ho.
Qed.

Lemma comments_insert_statement_appends obj w row w1 :
  comments_insert_statement obj w = (Return row, w1) →
  w_comments w1 = (w_comments w ++ [row])%list.
Proof.
  unfold comments_insert_statement, beforeInsert, newDate, bind, ret,
    comments_insert_row. simpl. intros E. by injection E as <- <-.
Qed.

Lemma comments_insert_hook_failure obj w row w1 e w2 :
  comments_insert_statement obj w = (Return row, w1) →
  afterInsert row w1 = (Throw e, w2) →
  comments_insert obj w = (Throw e, w2) ∧ row ∈ w_comments w2.
Proof.
  intros Hst Hhook. split.
  - unfold comments_insert, bind. rewrite Hst. by rewrite Hhook.
  - pose proof (afterInsert_comments row w1) as Hc. rewrite Hhook in Hc.
    simpl in Hc. rewrite Hc, (comments_insert_statement_appends _ _ _ _ Hst).
    apply elem_of_app. right. by apply list_elem_of_singleton.
Qed.

Lemma comments_patch_hook_failure id obj w w1 e w2 :
  comments_patch_statement id obj w = (Return tt, w1) →
  afterUpdate (comments_matched id) w1 = (Throw e, w2) →
  comments_patch id obj w = (Throw e, w2) ∧ w_comments w2 = w_comments w1.
Proof.
  intros Hst Hhook. split.
  - unfold comments_patch, bind. rewrite Hst. by rewrite Hhook.
  - pose proof (afterUpdate_comments (comments_matched id) w1) as Hc.
    by rewrite Hhook in Hc.
Qed.

End Hooks.

(** C1, as amended.  With the reference provider, once the storage
    mutation of a create or an update has succeeded, a failure thrown by the
    post-commit hook does not undo the write (the inserted row, respectively
    the patched table, is still there), but the failure is not contained: the
    hook awaits its side effects without a handler, so the call fails with the
    side effect's error instead of returning the persisted comment.  A failure
    of IndexSync inside [$afterInsert] is such a failure, and it also skips the
    notification. *)
Theorem post_commit_failure_reaches_caller `{Wiki} (render : string → string) w :
  (∀ a page row w1 e w2,
     guestAccepted a →
     contentPresent (nc_content a) →
     pages_findById (Some (nc_pageId a)) w = Some page →
     auth_checkAccess (nc_user a) ["write:comments"] (accessContext page) = true →
     comments_insert_statement
       (reference_newComment render
          (mkCreateArgs page (nc_replyTo a) (JS.trim (nc_content a))
                        (newCommentAuthor a))) w
     = (Return row, w1) →
     afterInsert row w1 = (Throw e, w2) →
     @postNewComment _ (referenceProvider render) a w = (Throw e, w2)
     ∧ row ∈ w_comments w2)
  ∧ (∀ a page w1 e w2,
       JS.truthy_number (commentProvider_getPageIdFromCommentId (uc_id a) w) = true →
       pages_findById (commentProvider_getPageIdFromCommentId (uc_id a) w) w
       = Some page →
       auth_checkAccess (uc_user a) ["manage:comments"] (accessContext page) = true →
       comments_patch_statement (uc_id a)
         (reference_patch render
            (mkUpdateArgs (uc_id a) (uc_content a) page
                          (mkAuthor (uc_user a) (uc_ip a)))) w
       = (Return tt, w1) →
       afterUpdate (comments_matched (uc_id a)) w1 = (Throw e, w2) →
       @updateComment _ (referenceProvider render) a w = (Throw e, w2)
       ∧ w_comments w2 = w_comments w1)
  ∧ (∀ this w0 e w',
       indexComments (Some (c_pageId this)) w0 = (Throw e, w') →
       afterInsert this w0 = (Throw e, w') ∧ w_outbox w' = w_outbox w0).
Proof.
  split; [|split].
  - intros a page row w1 e w2 Hg Hc Hp Ha Hst Hhook.
    rewrite (postNewComment_forwards a w page Hg Hc Hp Ha). simpl.
    unfold reference_create. by apply (comments_insert_hook_failure _ _ _ w1).
  - intros a page w1 e w2 Hn Hp Ha Hst Hhook.
    rewrite (updateComment_forwards a w page Hn Hp Ha).
    destruct (comments_patch_hook_failure _ _ _ _ _ _ Hst Hhook) as (Hpatch & Hkeep).
    split; [|done]. unfold provider_update, referenceProvider, reference_update, bind.
    cbn [up_id]. by rewrite Hpatch.
  - intros this w0 e w'. apply afterInsert_index_failure.
Qed.

Lemma post_commit_failure_reaches_caller_witness :
  (∃ row w2,
     @postNewComment (Demo.wiki false) (Demo.provider false)
       (Demo.newComment Demo.admin "Hello world" None None) (Demo.world [] ∅)
     = (Throw SearchEngineError, w2)
     ∧ row ∈ w_comments w2 ∧ c_content row = "Hello world")
  ∧ (∃ w1 w2,
       @updateComment (Demo.wiki false) (Demo.provider false)
         (mkUpdateCommentArgs 7 "Hi" Demo.admin "10.0.0.1")
         (Demo.world [Demo.comment 7 "Hello world" 100] ∅)
       = (Throw SearchEngineError, w2)
       ∧ w_comments w2 = w_comments w1
       ∧ (c_content <$> w_comments w1) = ["Hi"]).
Proof.
  split.
  - destruct (@post_commit_failure_reaches_caller (Demo.wiki false) (λ s, s)
                (Demo.world [] ∅)) as (Hcreate & _ & _).
    edestruct (Hcreate (Demo.newComment Demo.admin "Hello world" None None)
                       (Demo.page42 ∅)) as [Hres Hin].
    + intros E. vm_compute in E. discriminate E.
    + unfold contentPresent. vm_compute. lia.
    + reflexivity.
    + reflexivity.
    + reflexivity.
    + reflexivity.
    + eexists _, _. split; [exact Hres|]. split; [exact Hin|reflexivity].
  - destruct (@post_commit_failure_reaches_caller (Demo.wiki false) (λ s, s)
                (Demo.world [Demo.comment 7 "Hello world" 100] ∅))
      as (_ & Hupdate & _).
    edestruct (Hupdate (mkUpdateCommentArgs 7 "Hi" Demo.admin "10.0.0.1")
                       (Demo.page42 ∅)) as [Hres Hkeep].
    + reflexivity.
    + reflexivity.
    + reflexivity.
    + vm_compute. reflexivity.
    + vm_compute. reflexivity.
    + eexists _, _. split; [exact Hres|]. split; [exact Hkeep|reflexivity].
Defined.

(** C1 as stated fails: with the search engine down, a create whose row was
    inserted does not return the persisted comment; the engine's error reaches
    the caller. *)
Lemma post_commit_failure_counterexample :
  ¬ (∀ (W : Wiki) (render : string → string) a w page,
       guestAccepted a →
       contentPresent (nc_content a) →
       pages_findById (Some (nc_pageId a)) w = Some page →
       auth_checkAccess (nc_user a) ["write:comments"] (accessContext page) = true →
       ∃ c, fst (@postNewComment W (referenceProvider render) a w) = Return c).
Proof.
  intros Hclaim.
  destruct (Hclaim (Demo.wiki false) (λ s, s)
              (Demo.newComment Demo.admin "Hello world" None None)
              (Demo.world [] ∅) (Demo.page42 ∅)) as [c Hc].
  - intros E. vm_compute in E. discriminate E.
  - unfold contentPresent. vm_compute. lia.
  - reflexivity.
  - reflexivity.
  - vm_compute in Hc. discriminate Hc.
Qed.

(** The run behind the counterexample: the call is rejected with the
    engine's error, the new row stays in the table and no mail is sent. *)
Example create_with_search_engine_down :
  let r := @postNewComment (Demo.wiki false) (Demo.provider false)
             (Demo.newComment Demo.admin "Hello world" None None)
             (Demo.world [] ∅) in
  fst r = Throw SearchEngineError
  ∧ (c_content <$> w_comments (snd r)) = ["Hello world"]
  ∧ w_outbox (snd r) = [].
Proof. vm_compute. done. Qed.

(** ** Content of an updated comment *)

(** C2: what the source does on an update with blank content.
    [updateComment] neither trims nor measures the content; with the
    reference provider the call succeeds and the stored comment ends up with
    empty content. *)
Theorem updateComment_accepts_blank_content :
  let w := Demo.world [Demo.comment 7 "Hello world" 100] ∅ in
  let r := @updateComment (Demo.wiki true) (Demo.provider true)
             (mkUpdateCommentArgs 7 "" Demo.admin "10.0.0.1") w in
  (c_content <$> returned (fst r)) = Some ""
  ∧ (c_content <$> w_comments (snd r)) = [""]
  ∧ ¬ contentPresent "".
Proof.
  split; [|split].
  - vm_compute. reflexivity.
  - vm_compute. reflexivity.
  - unfold contentPresent. vm_compute. lia.
Qed.

(** ** Deletion *)

(** C4: what the source does on a delete.  [deleteComment] ends with the
    provider's [remove], and the model class has no hook for deletions: with
    the reference provider a delete never touches the pages table, the search
    index, the logger or the mailer, so IndexSync is not run. *)
Theorem deleteComment_runs_no_IndexSync `{Wiki} (render : string → string) a w :
  let w' := snd (@deleteComment _ (referenceProvider render) a w) in
  w_pages w' = w_pages w
  ∧ w_searchIndex w' = w_searchIndex w
  ∧ w_log w' = w_log w
  ∧ w_outbox w' = w_outbox w.
Proof.
  unfold deleteComment, bind, gets, pages_getPageFromDb.
  destruct (JS.truthy_number _); cbn [negb]; [|done].
  destruct (pages_findById _ w) as [page|]; [|done].
  by destruct (auth_checkAccess _ _ _).
Qed.

(** After the only comment of page 42 is deleted, the page's snapshot still
    lists it and the search index has not been told. *)
Example deleteComment_leaves_stale_snapshot :
  let e : gmap string Json := {["comment" := JArr [JStr "Hello world"]]} in
  let r := @deleteComment (Demo.wiki true) (Demo.provider true)
             (mkDeleteCommentArgs 7 Demo.admin "10.0.0.1")
             (Demo.world [Demo.comment 7 "Hello world" 100] e) in
  fst r = Return tt
  ∧ w_comments (snd r) = []
  ∧ (page_extra <$> pages_findById (Some 42) (snd r)) = Some e
  ∧ w_searchIndex (snd r) = ∅.
Proof. vm_compute. done. Qed.

(** * Further properties of the source *)

(** ** Trimming *)

Lemma trimStart_head s :
  JS.trimStart s = EmptyString
  ∨ ∃ c r, JS.trimStart s = String c r ∧ JS.is_whitespace c = false.
Proof.
  induction s as [|c r IH]; simpl; [by left|].
  destruct (JS.is_whitespace c) eqn:E; [done|]. right. eauto.
Qed.

Lemma trimEnd_head c r :
  JS.is_whitespace c = false → ∃ r', JS.trimEnd (String c r) = String c r'.
Proof.
  intros E. simpl. destruct (JS.trimEnd r); [rewrite E|]; eauto.
Qed.

Lemma trimEnd_idem s : JS.trimEnd (JS.trimEnd s) = JS.trimEnd s.
Proof.
  induction s as [|c r IH]; simpl; [done|].
  destruct (JS.trimEnd r) as [|c' r'] eqn:Er.
  - destruct (JS.is_whitespace c) eqn:E; simpl; [done|]. by rewrite E.
  - change (JS.trimEnd (String c (String c' r')) = String c (String c' r')).
    simpl. simpl in IH. by rewrite IH.
Qed.

Lemma trim_idem s : JS.trim (JS.trim s) = JS.trim s.
Proof.
  unfold JS.trim. destruct (trimStart_head s) as [->|(c & r & -> & E)]; [done|].
  destruct (trimEnd_head c r E) as [r' Hr]. rewrite Hr.
  simpl JS.trimStart. rewrite E, <- Hr. apply trimEnd_idem.
Qed.

Lemma trim_blank s : Validate.EMPTY_STRING_REGEXP s = true → JS.trim s = EmptyString.
Proof.
  unfold JS.trim. induction s as [|c r IH]; simpl; [done|].
  intros [Hc Hr]%andb_true_iff. rewrite Hc. by apply IH.
Qed.

(** ** The three entry points, case by case *)

(** X1.  [postNewComment] has five outcomes, tried in this order: the guest
    check fails ([InputInvalid] with the first message), the trimmed content
    is too short, the page is absent, access is denied, or the call is the
    provider's [create] on the trimmed content.  The four failures leave the
    state untouched; access is checked for the caller's user, not for the
    guest identity that is forwarded. *)
Theorem postNewComment_cases `{Wiki} `{CommentProvider} a w :
  (∃ m l,
     user_id (nc_user a) = 2
     ∧ validateGuest (JS.toLower (nc_guestEmail a)) (nc_guestName a) = Some (m :: l)
     ∧ postNewComment a w = (Throw (InputInvalid m), w))
  ∨ (guestAccepted a ∧ ¬ contentPresent (nc_content a)
     ∧ postNewComment a w = (Throw CommentContentMissing, w))
  ∨ (guestAccepted a ∧ contentPresent (nc_content a)
     ∧ pages_findById (Some (nc_pageId a)) w = None
     ∧ postNewComment a w = (Throw PageNotFound, w))
  ∨ (∃ page,
       guestAccepted a ∧ contentPresent (nc_content a)
       ∧ pages_findById (Some (nc_pageId a)) w = Some page
       ∧ auth_checkAccess (nc_user a) ["write:comments"] (accessContext page) = false
       ∧ postNewComment a w = (Throw CommentPostForbidden, w))
  ∨ (∃ page,
       guestAccepted a ∧ contentPresent (nc_content a)
       ∧ pages_findById (Some (nc_pageId a)) w = Some page
       ∧ auth_checkAccess (nc_user a) ["write:comments"] (accessContext page) = true
       ∧ postNewComment a w
         = provider_create
             (mkCreateArgs page (nc_replyTo a) (JS.trim (nc_content a))
                           (newCommentAuthor a)) w).
Proof.
  assert (guestAccepted a
          ∨ ∃ m l, user_id (nc_user a) = 2
                   ∧ validateGuest (JS.toLower (nc_guestEmail a)) (nc_guestName a)
                     = Some (m :: l)) as [Hg|(m & l & Hid & Hv)].
  { destruct (decide (user_id (nc_user a) = 2)) as [Hid|Hid]; [|by left; intros ?].
    destruct (validateGuest (JS.toLower (nc_guestEmail a)) (nc_guestName a))
      as [l|] eqn:Hv; [|by left; intros _].
    destruct (validateGuest_Some_cons _ _ _ Hv) as (m & r & ->). right. eauto. }
  2:{ left. exists m, l. split; [done|]. split; [done|].
      by eapply postNewComment_guest_invalid. }
  right. destruct (decide (contentPresent (nc_content a))) as [Hc|Hc].
  2:{ left. split; [done|]. split; [done|]. by apply postNewComment_content_missing. }
  right. destruct (pages_findById (Some (nc_pageId a)) w) as [page|] eqn:Hp.
  2:{ left. split; [done|]. split; [done|]. split; [done|].
      by apply postNewComment_page_absent. }
  right.
  destruct (auth_checkAccess (nc_user a) ["write:comments"] (accessContext page)) eqn:Ha.
  - right. exists page. repeat (split; [done|]). by apply postNewComment_forwards.
  - left. exists page. repeat (split; [done|]). by apply (postNewComment_forbidden _ _ page).
Qed.

(** X2.  [updateComment] has four outcomes, tried in this order: the comment
    id resolves to no page id ([CommentNotFound]), the page is absent
    ([PageNotFound]), access is denied ([CommentManageForbidden]), or the call
    is the provider's [update] with the content exactly as given.  The three
    failures leave the state untouched. *)
Theorem updateComment_cases `{Wiki} `{CommentProvider} a w :
  let pageId := commentProvider_getPageIdFromCommentId (uc_id a) w in
  (JS.truthy_number pageId = false
   ∧ updateComment a w = (Throw CommentNotFound, w))
  ∨ (JS.truthy_number pageId = true ∧ pages_findById pageId w = None
     ∧ updateComment a w = (Throw PageNotFound, w))
  ∨ (∃ page,
       JS.truthy_number pageId = true ∧ pages_findById pageId w = Some page
       ∧ auth_checkAccess (uc_user a) ["manage:comments"] (accessContext page) = false
       ∧ updateComment a w = (Throw CommentManageForbidden, w))
  ∨ (∃ page,
       JS.truthy_number pageId = true ∧ pages_findById pageId w = Some page
       ∧ auth_checkAccess (uc_user a) ["manage:comments"] (accessContext page) = true
       ∧ updateComment a w
         = provider_update
             (mkUpdateArgs (uc_id a) (uc_content a) page
                           (mkAuthor (uc_user a) (uc_ip a))) w).
Proof.
  intros pageId.
  destruct (JS.truthy_number pageId) eqn:Hn.
  2:{ left. split; [done|]. by apply updateComment_comment_not_found. }
  right. destruct (pages_findById pageId w) as [page|] eqn:Hp.
  2:{ left. split; [done|]. split; [done|]. by apply updateComment_page_absent. }
  right.
  destruct (auth_checkAccess (uc_user a) ["manage:comments"] (accessContext page)) eqn:Ha.
  - right. exists page. repeat (split; [done|]). by apply updateComment_forwards.
  - left. exists page. repeat (split; [done|]). by apply (updateComment_forbidden _ _ page).
Qed.

(** X3.  [deleteComment] has the same four outcomes as [updateComment], with
    the provider's [remove] as the last one; the gate is the same capability
    [manage:comments]. *)
Theorem deleteComment_cases `{Wiki} `{CommentProvider} a w :
  let pageId := commentProvider_getPageIdFromCommentId (dc_id a) w in
  (JS.truthy_number pageId = false
   ∧ deleteComment a w = (Throw CommentNotFound, w))
  ∨ (JS.truthy_number pageId = true ∧ pages_findById pageId w = None
     ∧ deleteComment a w = (Throw PageNotFound, w))
  ∨ (∃ page,
       JS.truthy_number pageId = true ∧ pages_findById pageId w = Some page
       ∧ auth_checkAccess (dc_user a) ["manage:comments"] (accessContext page) = false
       ∧ deleteComment a w = (Throw CommentManageForbidden, w))
  ∨ (∃ page,
       JS.truthy_number pageId = true ∧ pages_findById pageId w = Some page
       ∧ auth_checkAccess (dc_user a) ["manage:comments"] (accessContext page) = true
       ∧ deleteComment a w
         = provider_remove
             (mkRemoveArgs (dc_id a) page (mkAuthor (dc_user a) (dc_ip a))) w).
Proof.
  intros pageId.
  destruct (JS.truthy_number pageId) eqn:Hn.
  2:{ left. split; [done|]. by apply deleteComment_comment_not_found. }
  right. destruct (pages_findById pageId w) as [page|] eqn:Hp.
  2:{ left. split; [done|]. split; [done|]. by apply deleteComment_page_absent. }
  right.
  destruct (auth_checkAccess (dc_user a) ["manage:comments"] (accessContext page)) eqn:Ha.
  - right. exists page. repeat (split; [done|]). by apply deleteComment_forwards.
  - left. exists page. repeat (split; [done|]). by apply (deleteComment_forbidden _ _ page).
Qed.

(** ** Content handed to the provider by [postNewComment] *)

(** X4.  Whenever [postNewComment] reaches the provider, the content it hands
    over is already trimmed (trimming it again changes nothing) and has at
    least two characters, and the page it hands over is the row whose id the
    caller named. *)
Theorem created_content_is_trimmed `{Wiki} `{CommentProvider} a w page :
  guestAccepted a →
  contentPresent (nc_content a) →
  pages_findById (Some (nc_pageId a)) w = Some page →
  auth_checkAccess (nc_user a) ["write:comments"] (accessContext page) = true →
  ∃ args,
    postNewComment a w = provider_create args w
    ∧ JS.trim (cr_content args) = cr_content args
    ∧ (2 ≤ String.length (cr_content args))%nat
    ∧ page_id (cr_page args) = nc_pageId a
    ∧ cr_replyTo args = nc_replyTo a
    ∧ au_ip (cr_user args) = nc_ip a
    ∧ user_id (au_user (cr_user args)) = user_id (nc_user a).
Proof.
  intros Hg Hc Hp Ha. eexists. split; [by apply postNewComment_forwards|].
  simpl. split; [apply trim_idem|]. split; [exact Hc|].
  split; [by apply (pages_findById_id _ w)|]. split; [done|]. split; [done|].
  by destruct (user_id (nc_user a) =? 2).
Qed.

Lemma created_content_is_trimmed_witness :
  ∃ args,
    @postNewComment (Demo.wiki true) (Demo.provider true)
      (Demo.newComment Demo.guest "  Hello world  " (Some "Al") (Some "al@example.org"))
      (Demo.world [] ∅)
    = @provider_create (Demo.provider true) args (Demo.world [] ∅)
    ∧ JS.trim (cr_content args) = cr_content args
    ∧ (2 ≤ String.length (cr_content args))%nat
    ∧ page_id (cr_page args) = 42
    ∧ user_id (au_user (cr_user args)) = 2.
Proof.
  destruct (@created_content_is_trimmed (Demo.wiki true) (Demo.provider true)
              (Demo.newComment Demo.guest "  Hello world  " (Some "Al")
                               (Some "al@example.org"))
              (Demo.world [] ∅) (Demo.page42 ∅))
    as (args & Hrun & Htrim & Hlen & Hpage & _ & _ & Hid).
  - intros _. vm_compute. reflexivity.
  - unfold contentPresent. vm_compute. lia.
  - reflexivity.
  - reflexivity.
  - exists args. split; [exact Hrun|]. split; [exact Htrim|].
    split; [exact Hlen|]. split; [exact Hpage | exact Hid].
Defined.

(** X5.  Content made of whitespace only, however long, is refused with
    [CommentContentMissing] once the guest check has passed, and nothing is
    written. *)
Theorem blank_content_is_missing `{Wiki} `{CommentProvider} a w :
  guestAccepted a →
  Validate.EMPTY_STRING_REGEXP (nc_content a) = true →
  postNewComment a w = (Throw CommentContentMissing, w).
Proof.
  intros Hg Hblank. apply postNewComment_content_missing; [done|].
  unfold contentPresent. rewrite (trim_blank _ Hblank). simpl. lia.
Qed.

Lemma blank_content_is_missing_witness :
  @postNewComment (Demo.wiki true) (Demo.provider true)
    (Demo.newComment Demo.admin "      " None None) (Demo.world [] ∅)
  = (Throw CommentContentMissing, Demo.world [] ∅).
Proof.
  apply (@blank_content_is_missing (Demo.wiki true) (Demo.provider true)
           (Demo.newComment Demo.admin "      " None None) (Demo.world [] ∅)).
  - intros E. vm_compute in E. discriminate E.
  - reflexivity.
Defined.

(** ** The guest check *)

Lemma flat_None errors : Validate.flat errors = None ↔ errors = [].
Proof. by destruct errors. Qed.

(** X6.  The guest check accepts exactly when the (lowered) e-mail matches
    the pattern and has at most 255 characters, and the name is given, is not
    blank, and has between 2 and 255 characters. *)
Theorem validateGuest_accepts_iff `{Wiki} email name :
  validateGuest email name = None
  ↔ validate_email_PATTERN email = true
    ∧ (String.length email ≤ 255)%nat
    ∧ ∃ s, name = Some s
           ∧ Validate.EMPTY_STRING_REGEXP s = false
           ∧ (2 ≤ String.length s ≤ 255)%nat.
Proof.
  unfold validateGuest. rewrite flat_None. unfold Validate.fullMessages.
  unfold Validate.email, Validate.length_maximum_255, Validate.length_minimum_2,
    Validate.presence, Validate.isEmpty.
  destruct (validate_email_PATTERN email);
    destruct (Nat.ltb_spec 255 (String.length email));
    try (split; [discriminate | intros (? & ? & ?); (discriminate || lia)]).
  destruct name as [s|].
  2:{ split; [discriminate | by intros (_ & _ & s & ? & _)]. }
  destruct (Validate.EMPTY_STRING_REGEXP s) eqn:Eb.
  { split; [discriminate | intros (_ & _ & s' & [= <-] & Hb & _); congruence]. }
  destruct (Nat.ltb_spec (String.length s) 2);
    destruct (Nat.ltb_spec 255 (String.length s)); simpl;
    try (split; [discriminate | intros (_ & _ & s' & [= <-] & _ & ?); lia]).
  split; [intros _|done]. split; [done|]. split; [lia|].
  exists s. split; [done|]. split; [done|]. lia.
Qed.

Lemma validateGuest_accepts_iff_witness :
  @validateGuest (Demo.wiki true) "al@example.org" (Some "Al") = None.
Proof.
  apply (@validateGuest_accepts_iff (Demo.wiki true) "al@example.org" (Some "Al")).
  split; [reflexivity|]. split; [vm_compute; lia|].
  exists "Al". split; [reflexivity|]. split; [reflexivity|]. vm_compute. lia.
Defined.

(** X7.  The first message decides the error, and the e-mail rules come
    first: an e-mail that does not match the pattern is reported whatever the
    name is; with a valid e-mail a missing or blank name is reported as blank,
    and a one-character name as too short. *)
Theorem validateGuest_first_message `{Wiki} email name :
  (validate_email_PATTERN email = false →
   ∃ l, validateGuest email name = Some ("Email is not a valid email" :: l))
  ∧ (validate_email_PATTERN email = true →
     (String.length email ≤ 255)%nat →
     (Validate.isEmpty name = true →
      ∃ l, validateGuest email name = Some ("Name can't be blank" :: l))
     ∧ (∀ c, name = Some (String c EmptyString) →
             JS.is_whitespace c = false →
             validateGuest email name
             = Some ["Name is too short (minimum is 2 characters)"])).
Proof.
  split.
  - intros Hpat. unfold validateGuest, Validate.email. rewrite Hpat. simpl. eauto.
  - intros Hpat Hlen.
    assert (Validate.length_maximum_255 (Some email) = []) as Hmax.
    { unfold Validate.length_maximum_255.
      by destruct (Nat.ltb_spec 255 (String.length email)); [lia|]. }
    split.
    + intros Hblank. unfold validateGuest, Validate.email, Validate.presence.
      rewrite Hpat, Hmax, Hblank. simpl. eauto.
    + intros c -> Hc. unfold validateGuest, Validate.email, Validate.presence.
      rewrite Hpat, Hmax. simpl. by rewrite Hc.
Qed.

Lemma validateGuest_first_message_witness :
  (∃ l, @validateGuest (Demo.wiki true) "not-an-email" None
        = Some ("Email is not a valid email" :: l))
  ∧ (∃ l, @validateGuest (Demo.wiki true) "al@example.org" (Some "  ")
          = Some ("Name can't be blank" :: l))
  ∧ @validateGuest (Demo.wiki true) "al@example.org" (Some "A")
    = Some ["Name is too short (minimum is 2 characters)"].
Proof.
  destruct (@validateGuest_first_message (Demo.wiki true) "not-an-email" None)
    as [Hmail _].
  destruct (@validateGuest_first_message (Demo.wiki true) "al@example.org" (Some "  "))
    as [_ Hblank].
  destruct (@validateGuest_first_message (Demo.wiki true) "al@example.org" (Some "A"))
    as [_ Hshort].
  split; [|split].
  - apply Hmail. reflexivity.
  - apply Hblank; [reflexivity | vm_compute; lia | reflexivity].
  - destruct Hshort as [_ Hshort]; [reflexivity | vm_compute; lia |].
    apply (Hshort "A"%char); reflexivity.
Defined.

(** ** A page whose id is zero *)

(** X8.  The guard [if (!pageId)] of [updateComment] and [deleteComment]
    treats the page id 0 like a missing one: a comment that belongs to page 0
    is reported as [CommentNotFound] and the provider is not called, whether
    or not page 0 exists and whatever the caller may do. *)
Theorem page_id_zero_is_comment_not_found `{Wiki} `{CommentProvider} id w :
  commentProvider_getPageIdFromCommentId id w = Some 0 →
  (∀ content user ip,
     updateComment (mkUpdateCommentArgs id content user ip) w
     = (Throw CommentNotFound, w))
  ∧ (∀ user ip,
       deleteComment (mkDeleteCommentArgs id user ip) w
       = (Throw CommentNotFound, w)).
Proof.
  intros Hzero. split.
  - intros content user ip. apply updateComment_comment_not_found.
    simpl. by rewrite Hzero.
  - intros user ip. apply deleteComment_comment_not_found.
    simpl. by rewrite Hzero.
Qed.

Lemma page_id_zero_is_comment_not_found_witness :
  let w := mkWorld [mkComment 7 0 0 "Hello world" "Hello world" 1 None None
                              "10.0.0.1" 100 100]
                   10 [mkPage 0 "home" "en" "Home" ∅ "<p>home</p>"] ∅ [] [] 1000 in
  pages_findById (Some 0) w = Some (mkPage 0 "home" "en" "Home" ∅ "<p>home</p>")
  ∧ @updateComment (Demo.wiki true) (Demo.provider true)
      (mkUpdateCommentArgs 7 "Hi" Demo.admin "10.0.0.1") w
    = (Throw CommentNotFound, w)
  ∧ @deleteComment (Demo.wiki true) (Demo.provider true)
      (mkDeleteCommentArgs 7 Demo.admin "10.0.0.1") w
    = (Throw CommentNotFound, w).
Proof.
  intros w.
  destruct (@page_id_zero_is_comment_not_found (Demo.wiki true) (Demo.provider true)
              7 w) as [Hupd Hdel]; [reflexivity|].
  split; [reflexivity|]. split; [apply Hupd | apply Hdel].
Defined.

(** ** More on [indexComments] *)

(** X9.  When no page has the given id, [indexComments] throws a
    [TypeError] on reading [page.extra] before it writes anything, even if
    comments that name this page id are still in the table; the same happens
    when the id itself is missing. *)
Theorem indexComments_without_page_writes_nothing `{Wiki} pageId w :
  pages_findById pageId w = None →
  indexComments pageId w
  = (Throw (TypeError "Cannot read properties of undefined (reading 'extra')"), w).
Proof.
  intros Hp. unfold indexComments, bind, gets. cbn [JS.truthy_array].
  by rewrite Hp.
Qed.

Lemma indexComments_without_page_writes_nothing_witness :
  let w := Demo.pagelessWorld [Demo.comment 7 "Hello world" 100] in
  comments_where_pageId (Some 42) w ≠ []
  ∧ @indexComments (Demo.wiki true) (Some 42) w
    = (Throw (TypeError "Cannot read properties of undefined (reading 'extra')"), w)
  ∧ @indexComments (Demo.wiki true) None w
    = (Throw (TypeError "Cannot read properties of undefined (reading 'extra')"), w).
Proof.
  intros w. split; [discriminate|]. split.
  - apply (@indexComments_without_page_writes_nothing (Demo.wiki true) (Some 42) w).
    reflexivity.
  - apply (@indexComments_without_page_writes_nothing (Demo.wiki true) None w).
    reflexivity.
Defined.

(** X10.  The metadata patch and the push to the search engine are two
    separate writes: when the engine rejects the page, [indexComments] fails
    with the engine's error, the search index is as before, and the page
    keeps the new [comment] snapshot. *)
Theorem indexComments_rejected_push_keeps_patch `{Wiki} pid w page :
  pages_findById (Some pid) w = Some page →
  let fresh :=
    with_extra (<["comment" := commentSnapshot pid w]> (page_extra page)) page in
  searchEngine_updated
    (mkIndexedPage fresh (pages_cleanHTML (page_render page))) (w_searchIndex w)
  = None →
  ∃ w',
    indexComments (Some pid) w = (Throw SearchEngineError, w')
    ∧ pages_findById (Some pid) w' = Some fresh
    ∧ w_searchIndex w' = w_searchIndex w
    ∧ w_comments w' = w_comments w.
Proof.
  intros Hp fresh Hrej.
  pose proof (indexComments_findById _ _ _ Hp) as Hfind.
  rewrite (indexComments_present _ _ _ Hp) in *.
  unfold searchEngine_push in *. cbn [w_searchIndex set_pages] in *.
  fold fresh in Hfind |- *. rewrite Hrej in *.
  eexists. split; [reflexivity|]. split; [exact Hfind|]. done.
Qed.

Lemma indexComments_rejected_push_keeps_patch_witness :
  let w := Demo.world [Demo.comment 7 "Hello world" 100] ∅ in
  ∃ w',
    @indexComments (Demo.wiki false) (Some 42) w = (Throw SearchEngineError, w')
    ∧ pages_findById (Some 42) w'
      = Some (Demo.page42 {["comment" := JArr [JStr "Hello world"]]})
    ∧ w_searchIndex w' = ∅.
Proof.
  intros w.
  destruct (@indexComments_rejected_push_keeps_patch (Demo.wiki false) 42 w
              (Demo.page42 ∅)) as (w' & Hrun & Hfind & Hix & _);
    [reflexivity..|].
  exists w'. split; [exact Hrun|]. split; [|exact Hix].
  rewrite Hfind. vm_compute. reflexivity.
Defined.

(** X11.  When the engine accepts, [indexComments] succeeds; the document
    it pushed is the page as re-read after the patch, so it already carries
    the new [comment] snapshot, together with [safeContent], the cleaned
    rendered body. *)
Theorem indexComments_pushes_fresh_page `{Wiki} pid w page ix :
  pages_findById (Some pid) w = Some page →
  let fresh :=
    with_extra (<["comment" := commentSnapshot pid w]> (page_extra page)) page in
  searchEngine_updated
    (mkIndexedPage fresh (pages_cleanHTML (page_render page))) (w_searchIndex w)
  = Some ix →
  ∃ w',
    indexComments (Some pid) w = (Return tt, w')
    ∧ w_searchIndex w' = ix
    ∧ pages_findById (Some pid) w' = Some fresh
    ∧ page_extra fresh !! "comment" = Some (commentSnapshot pid w).
Proof.
  intros Hp fresh Hacc.
  pose proof (indexComments_findById _ _ _ Hp) as Hfind.
  rewrite (indexComments_present _ _ _ Hp) in *.
  unfold searchEngine_push in *. cbn [w_searchIndex set_pages] in *.
  fold fresh in Hfind |- *. rewrite Hacc in *.
  eexists. split; [reflexivity|]. split; [done|]. split; [exact Hfind|].
  simpl. by rewrite lookup_insert_eq.
Qed.

Lemma indexComments_pushes_fresh_page_witness :
  let w := Demo.world [Demo.comment 7 "Hello world" 100] ∅ in
  let fresh := Demo.page42 {["comment" := JArr [JStr "Hello world"]]} in
  ∃ w',
    @indexComments (Demo.wiki true) (Some 42) w = (Return tt, w')
    ∧ w_searchIndex w' = {[42 := mkIndexedPage fresh "<p>body</p>"]}
    ∧ pages_findById (Some 42) w' = Some fresh.
Proof.
  intros w fresh.
  destruct (@indexComments_pushes_fresh_page (Demo.wiki true) 42 w (Demo.page42 ∅)
              {[42 := mkIndexedPage fresh "<p>body</p>"]})
    as (w' & Hrun & Hix & Hfind & _).
  - reflexivity.
  - vm_compute. reflexivity.
  - exists w'. split; [exact Hrun|]. split; [exact Hix|].
    rewrite Hfind. vm_compute. reflexivity.
Defined.

(** X12.  [indexComments] writes to the rows of one page id only: every
    other page reads back as before, and the pages table keeps its length. *)
Theorem indexComments_other_pages_untouched `{Wiki} pageId w q :
  Some q ≠ pageId →
  pages_findById (Some q) (snd (indexComments pageId w)) = pages_findById (Some q) w
  ∧ length (w_pages (snd (indexComments pageId w))) = length (w_pages w).
Proof.
  intros Hq. destruct (pages_findById pageId w) as [page|] eqn:Hp.
  - destruct pageId as [pid|]; [|done].
    assert (q ≠ pid) as Hne by congruence.
    unfold pages_findById.
    rewrite (indexComments_pages _ _ _ Hp). split; [|by rewrite length_map].
    rewrite find_patch_extra.
    destruct (List.find (λ p, page_id p =? q) (w_pages w)) as [p|] eqn:Hf; [|done].
    simpl. apply find_page_id in Hf.
    by destruct (Z.eqb_spec (page_id p) pid); [congruence|].
  - by rewrite (indexComments_without_page_writes_nothing _ _ Hp).
Qed.

Lemma indexComments_other_pages_untouched_witness :
  let other := mkPage 43 "b" "en" "Page B" {["comment" := JArr [JStr "kept"]]} "<p>b</p>" in
  let w := mkWorld [Demo.comment 7 "Hello world" 100] 10 [Demo.page42 ∅; other]
                   ∅ [] [] 1000 in
  pages_findById (Some 43) (snd (@indexComments (Demo.wiki true) (Some 42) w))
  = Some other.
Proof.
  intros other w.
  destruct (@indexComments_other_pages_untouched (Demo.wiki true) (Some 42) w 43)
    as [Hfind _]; [discriminate|].
  rewrite Hfind. reflexivity.
Defined.

(** ** The hooks *)

(** X13.  [$afterInsert] fails exactly when IndexSync fails, with the same
    error and in the state IndexSync left: once IndexSync has succeeded the
    page is there, so the notification cannot fail.  In that case exactly one
    mail is handed to the mailer, addressed to [NOTIFY_EMAIL] alone, carrying
    the comment's content and a link built from host, locale and path. *)
Theorem afterInsert_fails_only_with_IndexSync `{Wiki} this w :
  let r := indexComments (Some (c_pageId this)) w in
  match fst r with
  | Return _ =>
      ∃ page m,
        pages_findById (Some (c_pageId this)) (snd r) = Some page
        ∧ afterInsert this w
          = (Return tt, set_outbox (λ l, (l ++ [m])%list) (snd r))
        ∧ mail_to m = [env_NOTIFY_EMAIL]
        ∧ md_content (mail_data m) = c_content this
        ∧ md_buttonLink (mail_data m)
          = config_host ++ "/" ++ page_localeCode page ++ "/" ++ page_path page
  | Throw e => afterInsert this w = (Throw e, snd r)
  end.
Proof.
  intros r. unfold afterInsert, bind.
  destruct (pages_findById (Some (c_pageId this)) w) as [page|] eqn:Hp.
  - pose proof (indexComments_findById _ _ _ Hp) as Hfind. fold r in Hfind.
    destruct (indexComments (Some (c_pageId this)) w) as [[[]|e] w1] eqn:Hr;
      subst r; cbn [fst snd] in *; [|done].
    eexists _, _. split; [exact Hfind|].
    unfold sendNotify, bind, gets. rewrite Hfind. unfold mail_send, modify.
    split; [reflexivity|]. done.
  - subst r. by rewrite (indexComments_without_page_writes_nothing _ _ Hp).
Qed.

(** X14.  The static [afterUpdate] re-indexes the page of the first comment
    the update matched, resolved through the provider's lookup; when the
    update matched no row it throws a [TypeError] and changes nothing.  It
    never sends a notification, and writes neither to the comments table nor to
    the logger. *)
Theorem afterUpdate_reindexes_first_match `{Wiki} asFindQuery w :
  (asFindQuery w = [] →
   afterUpdate asFindQuery w
   = (Throw (TypeError "Cannot read properties of undefined (reading 'id')"), w))
  ∧ (∀ id rest,
       asFindQuery w = id :: rest →
       afterUpdate asFindQuery w
       = indexComments (commentProvider_getPageIdFromCommentId id w) w)
  ∧ w_outbox (snd (afterUpdate asFindQuery w)) = w_outbox w
  ∧ w_comments (snd (afterUpdate asFindQuery w)) = w_comments w
  ∧ w_log (snd (afterUpdate asFindQuery w)) = w_log w.
Proof.
  unfold afterUpdate, bind, gets.
  destruct (asFindQuery w) as [|id rest]; simpl.
  - repeat split; done.
  - split; [done|]. split; [by intros ? ? [= <- <-]|].
    destruct (indexComments_frame (commentProvider_getPageIdFromCommentId id w) w)
      as (Hc & Hl & Ho). done.
Qed.

Lemma afterUpdate_reindexes_first_match_witness :
  let w := Demo.world [Demo.comment 7 "Hello world" 100] ∅ in
  @afterUpdate (Demo.wiki true) (comments_matched 8) w
  = (Throw (TypeError "Cannot read properties of undefined (reading 'id')"), w)
  ∧ @afterUpdate (Demo.wiki true) (comments_matched 7) w
    = @indexComments (Demo.wiki true) (Some 42) w.
Proof.
  intros w.
  destruct (@afterUpdate_reindexes_first_match (Demo.wiki true) (comments_matched 8) w)
    as (Hnone & _).
  destruct (@afterUpdate_reindexes_first_match (Demo.wiki true) (comments_matched 7) w)
    as (_ & Hsome & _).
  split; [apply Hnone; reflexivity|].
  apply (Hsome 7 []). reflexivity.
Defined.



(** ** What the snapshot holds *)

(** X16.  When the database returns the rows it was asked for, the snapshot
    written by [indexComments] has one entry per comment of the page, and a
    text is in it exactly when it is the content of a comment of this page:
    comments of other pages never leak into it.  This does not depend on
    whether the push to the search engine succeeds. *)
Theorem snapshot_holds_the_pages_comments `{Wiki} pid w page :
  (∀ l, orderBy_createdAt_desc l ≡ₚ l) →
  pages_findById (Some pid) w = Some page →
  ∃ page' contents,
    pages_findById (Some pid) (snd (indexComments (Some pid) w)) = Some page'
    ∧ page_extra page' !! "comment" = Some (JArr (JStr <$> contents))
    ∧ length contents = length (comments_where_pageId (Some pid) w)
    ∧ ∀ s, s ∈ contents
           ↔ ∃ c, c ∈ w_comments w ∧ c_pageId c = pid ∧ c_content c = s.
Proof.
  intros Hperm Hp.
  exists (with_extra (<["comment" := commentSnapshot pid w]> (page_extra page)) page),
         (c_content <$> orderBy_createdAt_desc (comments_where_pageId (Some pid) w)).
  split; [by apply indexComments_findById|].
  split; [simpl; by rewrite lookup_insert_eq|].
  split; [by rewrite length_fmap, Hperm|].
  intros s. rewrite list_elem_of_fmap. split.
  - intros (c & -> & Hc). rewrite Hperm in Hc.
    apply list_elem_of_filter in Hc as [Hpage Hc].
    exists c. split; [done|]. split; [congruence | done].
  - intros (c & Hc & Hpage & <-). exists c. split; [done|].
    rewrite Hperm. apply list_elem_of_filter. split; [by rewrite Hpage | done].
Qed.

Lemma snapshot_holds_the_pages_comments_witness :
  let foreign := mkComment 3 43 0 "elsewhere" "elsewhere" 1 None None "10.0.0.1" 150 150 in
  let w := Demo.world [Demo.comment 1 "first" 100; foreign; Demo.comment 2 "second" 200]
                      ∅ in
  ∃ page' contents,
    pages_findById (Some 42) (snd (@indexComments (Demo.wiki false) (Some 42) w))
    = Some page'
    ∧ page_extra page' !! "comment" = Some (JArr (JStr <$> contents))
    ∧ length contents = 2%nat
    ∧ "elsewhere" ∉ contents.
Proof.
  intros foreign w.
  destruct (@snapshot_holds_the_pages_comments (Demo.wiki false) 42 w (Demo.page42 ∅))
    as (page' & contents & Hfind & Hsnap & Hlen & Hmem).
  - exact demo_orderBy_perm.
  - reflexivity.
  - exists page', contents. split; [exact Hfind|]. split; [exact Hsnap|].
    split; [exact Hlen|].
    intros Hin. apply Hmem in Hin as (c & Hc & Hpage & Hcontent).
    revert Hpage Hcontent.
    apply elem_of_cons in Hc as [->|Hc]; [discriminate|].
    apply elem_of_cons in Hc as [->|Hc]; [discriminate|].
    apply elem_of_cons in Hc as [->|Hc]; [discriminate|].
    by apply elem_of_nil in Hc.
Defined.
